(** * The light component: reactive properties and mask resolution

    A shallow embedding of [src/framework/components/light/component.js]:
    the registry built by [_defineProperty], the accessor pair it installs
    (no-op detection, storage, dispatch of the on-change function), the
    handlers of [_defineProps], the deprecated [enable] alias and
    [refreshProperties], together with the properties they satisfy. *)

From Stdlib Require Import ZArith Lia Bool.
From Stdlib Require Import Floats.
From stdpp Require Import base option list gmap strings.

Local Open Scope Z_scope.
Set Warnings "-inexact-float".

(** ** JavaScript values and the coercions the source relies on *)

Module JS.

(** Property values are dynamically typed.  Numbers are IEEE doubles;
    objects (colours, textures, rendering handles) are references. *)
Inductive Value : Type :=
| VUndefined
| VNull
| VBool (b : bool)
| VNum (x : float)
| VStr (s : string)
| VObj (r : nat).

(** [a === b]: numbers by IEEE equality (NaN differs from itself, the two
    zeros are equal), strings and booleans by value, objects by
    reference. *)
Definition strict_eq (a b : Value) : bool :=
  match a, b with
  | VUndefined, VUndefined => true
  | VNull, VNull => true
  | VBool x, VBool y => Bool.eqb x y
  | VNum x, VNum y => PrimFloat.eqb x y
  | VStr x, VStr y => String.eqb x y
  | VObj x, VObj y => Nat.eqb x y
  | _, _ => false
  end.

(** ToBoolean, as taken by [if (v)] and [&&]. *)
Definition truthy (v : Value) : bool :=
  match v with
  | VUndefined | VNull => false
  | VBool b => b
  | VNum x => negb (PrimFloat.eqb x 0%float || PrimFloat.is_nan x)
  | VStr s => negb (String.eqb s EmptyString)
  | VObj _ => true
  end.

(** ToInt32 on integers: wrap into [-2^31, 2^31). *)
Definition int32 (z : Z) : Z := (z + 2 ^ 31) mod 2 ^ 32 - 2 ^ 31.

(** The integer part of a double (0 for NaN and the infinities). *)
Definition trunc (x : float) : Z :=
  match Prim2SF x with
  | S754_finite s m e =>
      let a := if 0 <=? e then Z.pos m * 2 ^ e else Z.pos m / 2 ^ (- e) in
      if s then - a else a
  | _ => 0
  end.

(** The low 32 bits, as an unsigned integer. *)
Definition low (z : Z) : Z := Z.land z (Z.ones 32).

(** [m | c] and [m & ~c] as JavaScript computes them: both operands go
    through ToInt32 and the result is a signed 32-bit integer. *)
Definition bit_or (m c : Z) : Z := int32 (Z.lor (int32 m) (int32 c)).
Definition bit_and (m c : Z) : Z := int32 (Z.land (int32 m) (int32 c)).
Definition bit_not (c : Z) : Z := int32 (Z.lnot (int32 c)).

(** [(m & c) !== 0]: the test a consumer of the mask applies. *)
Definition has_bits (m c : Z) : bool := negb (bit_and m c =? 0).

End JS.
Export JS.

(** ** Completions and the state monad of the embedding *)

(** How a call ends: normally with a value, with a TypeError propagating to
    the caller (the state reached so far is kept: nothing is rolled back),
    or not at all within the allowed nesting of [refreshProperties]. *)
Inductive Completion (S A : Type) : Type :=
| Normal (a : A) (s : S)
| Throw (s : S)
| Exhausted.
Arguments Normal {S A} a s.
Arguments Throw {S A} s.
Arguments Exhausted {S A}.

Definition M (S A : Type) : Type := S -> Completion S A.

Definition ret {S A} (a : A) : M S A := fun s => Normal a s.
Definition bind {S A B} (m : M S A) (k : A -> M S B) : M S B :=
  fun s => match m s with
           | Normal a s' => k a s'
           | Throw s' => Throw s'
           | Exhausted => Exhausted
           end.
Definition throw {S A} : M S A := fun s => Throw s.
Definition diverge {S A} : M S A := fun _ => Exhausted.
Definition modify {S} (f : S -> S) : M S unit := fun s => Normal tt (f s).
Definition gets {S A} (f : S -> A) : M S A := fun s => Normal (f s) s.

Declare Scope js_scope.
Delimit Scope js_scope with js.
Notation "'let*' x ':=' m 'in' k" := (bind m (fun x => k))
  (at level 10, x name, m at level 100, k at level 200) : js_scope.
Notation "m '>>' k" := (bind m (fun _ => k))
  (at level 100, k at level 200, right associativity) : js_scope.
Local Open Scope js_scope.

(** [for (...) body(x)] over a list that the body does not change. *)
Fixpoint for_each {S A} (l : list A) (body : A -> M S unit) : M S unit :=
  match l with
  | [] => ret tt
  | x :: l' => body x >> for_each l' body
  end.

(** ** The rendering handle *)

Module Light.

(** The methods of the handle that the component calls. *)
Inductive Method : Set :=
| setColor | setIntensity | setCastShadows | setShadowDistance
| setShadowResolution | setShadowBias | setNormalOffsetBias
| setAttenuationEnd | setInnerConeAngle | setOuterConeAngle
| setFalloffMode | setShadowType | setVsmBlurSize | setVsmBlurMode
| setVsmBias | setCookie | setCookieIntensity | setCookieFalloff
| setCookieChannel | setMask | setEnabled | updateShadow.

(** An argument is a property value, or the signed 32-bit integer that
    the bit operations on [mask] leave. *)
Inductive Arg : Type :=
| AVal (v : Value)
| AInt (z : Z).

(** Modelled from the spec: the rendering handle is outside the source;
    it "exposes one setter per property plus a mutable integer mask
    field" and an enabled flag.  [mask] is the field as the bit
    operations see it (its ToInt32); [calls] records every method call
    received, oldest first. *)
Record t : Type := {
  mask : Z;
  enabled : bool;
  shadowUpdateMode : Value;
  calls : list (Method * Arg)
}.

Definition arg_truthy (a : Arg) : bool :=
  match a with
  | AVal v => truthy v
  | AInt z => negb (z =? 0)
  end.

(** Modelled from the spec: what a call does to the handle.  [setMask]
    stores its argument in [mask], [setEnabled] sets the flag; every
    call is appended to the log. *)
Definition receive (ToInt32 : Value -> Z) (m : Method) (a : Arg) (h : t) : t :=
  {| mask := match m, a with
             | setMask, AVal v => ToInt32 v
             | setMask, AInt z => int32 z
             | _, _ => mask h
             end;
     enabled := match m with
                | setEnabled => arg_truthy a
                | _ => enabled h
                end;
     shadowUpdateMode := shadowUpdateMode h;
     calls := calls h ++ [(m, a)] |}.

Definition set_mask (z : Z) (h : t) : t :=
  {| mask := z; enabled := enabled h;
     shadowUpdateMode := shadowUpdateMode h; calls := calls h |}.

Definition set_shadowUpdateMode (v : Value) (h : t) : t :=
  {| mask := mask h; enabled := enabled h;
     shadowUpdateMode := v; calls := calls h |}.

End Light.

(** Objects on the heap: rendering handles, colours (red, green, blue,
    alpha), and anything else. *)
Inductive Obj : Type :=
| OLight (h : Light.t)
| OColor (r g b a : float)
| OOther.

(** ** The engine namespace [pc] and the language runtime *)

(** What the source takes from outside: the constants of [pc], the colour
    object allocated by [new pc.Color(1, 1, 1)] on line 132, ToNumber on
    strings and objects, and the handle a light factory returns for a
    type. *)
Record Host : Type := {
  MASK_DYNAMIC : Z;
  MASK_BAKED : Z;
  MASK_LIGHTMAP : Z;
  LIGHTFALLOFF_LINEAR : Value;
  SHADOW_DEPTH : Value;
  BLUR_GAUSSIAN : Value;
  SHADOWUPDATE_REALTIME : Value;
  white : nat;
  to_number_other : Value -> float;
  createLight : Value -> Light.t
}.

(** ** The property registry (lines 92-113, 119-236) *)

(** The on-change functions passed to [_defineProperty], one constructor
    per function body of [_defineProps]; [forward m] is the body
    [this.light.m(newValue)]. *)
Inductive SetFunc : Type :=
| on_enabled
| on_type
| forward (m : Light.Method)
| on_shadowBias
| on_shadowUpdateMode
| on_affectDynamic
| on_affectLightmapped
| on_bake.

(** An accessor pair on [LightComponent.prototype]: the one installed by
    [_defineProperty] (it closes over [name] and [setFunc] and is declared
    [configurable: true]), or the deprecated [enable] alias of lines
    227-236 (no [configurable], hence not configurable). *)
Inductive Accessor : Type :=
| Property (name : string) (setFunc : option SetFunc)
| EnableAlias.

Definition configurable (a : Accessor) : bool :=
  match a with
  | Property _ _ => true
  | EnableAlias => false
  end.

(** The module-level state: the arrays [_props] and [_propsDefault] and
    the accessors of the prototype. *)
Record Registry : Type := {
  _props : list string;
  _propsDefault : list Value;
  prototype : gmap string Accessor
}.

Definition no_registry : Registry :=
  {| _props := []; _propsDefault := []; prototype := ∅ |}.

(** [Object.defineProperty(c, key, acc)]: redefining a property that is
    not configurable is a TypeError. *)
Definition Object_defineProperty (key : string) (acc : Accessor) : M Registry unit :=
  fun R =>
    match prototype R !! key with
    | Some old =>
        if configurable old
        then Normal tt {| _props := _props R; _propsDefault := _propsDefault R;
                          prototype := <[key := acc]> (prototype R) |}
        else Throw R
    | None =>
        Normal tt {| _props := _props R; _propsDefault := _propsDefault R;
                     prototype := <[key := acc]> (prototype R) |}
    end.

(** Lines 94-113. *)
Definition _defineProperty (name : string) (defaultValue : Value)
    (setFunc : option SetFunc) : M Registry unit :=
  modify (fun R => {| _props := _props R ++ [name];
                      _propsDefault := _propsDefault R;
                      prototype := prototype R |}) >>
  modify (fun R => {| _props := _props R;
                      _propsDefault := _propsDefault R ++ [defaultValue];
                      prototype := prototype R |}) >>
  Object_defineProperty name (Property name setFunc).

Section Registration.

Context (pc : Host).

Definition num (x : float) : Value := VNum x.

(** Lines 119-223: the twenty-seven registrations, in source order. *)
Definition _defineProps : M Registry unit :=
  _defineProperty "enabled" (VBool true) (Some on_enabled) >>
  _defineProperty "light" VNull None >>
  _defineProperty "type" (VStr "directional") (Some on_type) >>
  _defineProperty "color" (VObj (white pc)) (Some (forward Light.setColor)) >>
  _defineProperty "intensity" (num 1) (Some (forward Light.setIntensity)) >>
  _defineProperty "castShadows" (VBool false) (Some (forward Light.setCastShadows)) >>
  _defineProperty "shadowDistance" (num 40) (Some (forward Light.setShadowDistance)) >>
  _defineProperty "shadowResolution" (num 1024) (Some (forward Light.setShadowResolution)) >>
  _defineProperty "shadowBias" (num 0.05) (Some on_shadowBias) >>
  _defineProperty "normalOffsetBias" (num 0) (Some (forward Light.setNormalOffsetBias)) >>
  _defineProperty "range" (num 10) (Some (forward Light.setAttenuationEnd)) >>
  _defineProperty "innerConeAngle" (num 40) (Some (forward Light.setInnerConeAngle)) >>
  _defineProperty "outerConeAngle" (num 45) (Some (forward Light.setOuterConeAngle)) >>
  _defineProperty "falloffMode" (LIGHTFALLOFF_LINEAR pc) (Some (forward Light.setFalloffMode)) >>
  _defineProperty "shadowType" (SHADOW_DEPTH pc) (Some (forward Light.setShadowType)) >>
  _defineProperty "vsmBlurSize" (num 11) (Some (forward Light.setVsmBlurSize)) >>
  _defineProperty "vsmBlurMode" (BLUR_GAUSSIAN pc) (Some (forward Light.setVsmBlurMode)) >>
  _defineProperty "vsmBias" (num (0.01 * 0.25)) (Some (forward Light.setVsmBias)) >>
  _defineProperty "cookie" VNull (Some (forward Light.setCookie)) >>
  _defineProperty "cookieIntensity" (num 1) (Some (forward Light.setCookieIntensity)) >>
  _defineProperty "cookieFalloff" (VBool false) (Some (forward Light.setCookieFalloff)) >>
  _defineProperty "cookieChannel" (VStr "rgb") (Some (forward Light.setCookieChannel)) >>
  _defineProperty "shadowUpdateMode" (SHADOWUPDATE_REALTIME pc) (Some on_shadowUpdateMode) >>
  _defineProperty "mask" (num 1) (Some (forward Light.setMask)) >>
  _defineProperty "affectDynamic" (VBool true) (Some on_affectDynamic) >>
  _defineProperty "affectLightmapped" (VBool false) (Some on_affectLightmapped) >>
  _defineProperty "bake" (VBool false) (Some on_bake).

(** Lines 224-236: the module body runs [_defineProps()] and then
    defines the [enable] alias. *)
Definition module_body : M Registry unit :=
  _defineProps >> Object_defineProperty "enable" EnableAlias.

(** The registry the module leaves behind. *)
Definition LightComponent : Registry :=
  match module_body no_registry with
  | Normal _ R => R
  | Throw R => R
  | Exhausted => no_registry
  end.

End Registration.

(** ** A component instance *)

(** Calls that leave the source for the surrounding framework. *)
Inductive FrameworkCall : Type :=
| super_onEnable
| super_onDisable
| system_changeType (oldType newType : Value).

(** One invocation [setFunc.call(this, value, oldValue)] of line 109. *)
Record Dispatch : Type := {
  d_name : string;
  d_value : Value;
  d_oldValue : Value
}.

(** The state that the methods of an instance read and write:
    [this.data], the data properties written on the object itself where
    no accessor intercepts, [this.entity.enabled], the objects reachable
    from the values, what [console.warn] printed, and two traces: the
    on-change functions invoked and the calls into the framework. *)
Record Component : Type := {
  data : gmap string Value;
  own : gmap string Value;
  entity_enabled : bool;
  heap : gmap nat Obj;
  console : list string;
  fired : list Dispatch;
  framework : list FrameworkCall
}.

Definition with_data (f : gmap string Value -> gmap string Value) (s : Component) : Component :=
  {| data := f (data s); own := own s; entity_enabled := entity_enabled s;
     heap := heap s; console := console s; fired := fired s;
     framework := framework s |}.

Definition with_own (f : gmap string Value -> gmap string Value) (s : Component) : Component :=
  {| data := data s; own := f (own s); entity_enabled := entity_enabled s;
     heap := heap s; console := console s; fired := fired s;
     framework := framework s |}.

Definition with_heap (f : gmap nat Obj -> gmap nat Obj) (s : Component) : Component :=
  {| data := data s; own := own s; entity_enabled := entity_enabled s;
     heap := f (heap s); console := console s; fired := fired s;
     framework := framework s |}.

Definition with_console (f : list string -> list string) (s : Component) : Component :=
  {| data := data s; own := own s; entity_enabled := entity_enabled s;
     heap := heap s; console := f (console s); fired := fired s;
     framework := framework s |}.

Definition with_fired (f : list Dispatch -> list Dispatch) (s : Component) : Component :=
  {| data := data s; own := own s; entity_enabled := entity_enabled s;
     heap := heap s; console := console s; fired := f (fired s);
     framework := framework s |}.

Definition with_framework (f : list FrameworkCall -> list FrameworkCall) (s : Component) : Component :=
  {| data := data s; own := own s; entity_enabled := entity_enabled s;
     heap := heap s; console := console s; fired := fired s;
     framework := f (framework s) |}.

(** [o[key]] on a plain object: a missing key reads as [undefined]. *)
Definition read (o : gmap string Value) (key : string) : Value :=
  default VUndefined (o !! key).

Definition console_warn (msg : string) : M Component unit :=
  modify (with_console (fun l => l ++ [msg])).

Definition enable_get_warning : string :=
  "WARNING: enable: Property is deprecated. Query enabled property instead.".
Definition enable_set_warning : string :=
  "WARNING: enable: Property is deprecated. Set enabled property instead.".

(** The handle a value refers to, if it refers to one. *)
Definition light_at (s : Component) (v : Value) : option (nat * Light.t) :=
  match v with
  | VObj r => match heap s !! r with
              | Some (OLight h) => Some (r, h)
              | _ => None
              end
  | _ => None
  end.

Section Instance.

Context (pc : Host).
(** The accessors in force; [LightComponent pc] once the module has
    run. *)
Context (R : Registry).

(** ToNumber and ToInt32. *)
Definition ToNumber (v : Value) : float :=
  match v with
  | VUndefined => nan
  | VNull => 0%float
  | VBool b => if b then 1%float else 0%float
  | VNum x => x
  | VStr _ | VObj _ => to_number_other pc v
  end.
Definition ToInt32 (v : Value) : Z := int32 (trunc (ToNumber v)).

(** *** Property access on [this] *)

(** The getter of line 101: [this.data[name]]. *)
Definition property_get (name : string) : M Component Value :=
  gets (fun s => read (data s) name).

(** [this[key]] read through whatever the prototype has under [key].
    The alias getter (lines 228-231) warns and reads [this.enabled]; an
    alias under "enabled" itself would call itself for ever. *)
Definition get_enabled : M Component Value :=
  match prototype R !! "enabled" with
  | Some (Property name _) => property_get name
  | Some EnableAlias => diverge
  | None => gets (fun s => read (own s) "enabled")
  end.

Definition get (key : string) : M Component Value :=
  match prototype R !! key with
  | Some (Property name _) => property_get name
  | Some EnableAlias => console_warn enable_get_warning >> get_enabled
  | None => gets (fun s => read (own s) key)
  end.

(** *** Calls on [this.light] *)

(** [this.light.m(arg)]: reading a member of [null] or [undefined] is a
    TypeError before the argument is evaluated; calling a missing
    method is a TypeError after. *)
Definition call_light (m : Light.Method) (arg : M Component Light.Arg) : M Component unit :=
  let* l := get "light" in
  match l with
  | VUndefined | VNull => throw
  | _ =>
      let* a := arg in
      fun s => match light_at s l with
               | Some (r, h) =>
                   Normal tt (with_heap (insert r (OLight (Light.receive ToInt32 m a h))) s)
               | None => Throw s
               end
  end.

(** [this.light.mask]: [undefined] on anything that is not a handle. *)
Definition light_mask : M Component Light.Arg :=
  let* l := get "light" in
  match l with
  | VUndefined | VNull => throw
  | _ => gets (fun s => match light_at s l with
                        | Some (_, h) => Light.AInt (Light.mask h)
                        | None => Light.AVal VUndefined
                        end)
  end.

(** [this.light.mask = f(this.light.mask)], the shape of [|=] and
    [&=].  On a value that is not a handle the write goes to a field
    the model does not track. *)
Definition update_light_mask (f : Z -> Z) : M Component unit :=
  let* l := get "light" in
  match l with
  | VUndefined | VNull => throw
  | _ => modify (fun s => match light_at s l with
                          | Some (r, h) =>
                              with_heap (insert r (OLight (Light.set_mask (f (Light.mask h)) h))) s
                          | None => s
                          end)
  end.

(** [this.light.shadowUpdateMode = v] (line 190). *)
Definition assign_shadowUpdateMode (v : Value) : M Component unit :=
  let* l := get "light" in
  match l with
  | VUndefined | VNull => throw
  | _ => modify (fun s => match light_at s l with
                          | Some (r, h) =>
                              with_heap (insert r (OLight (Light.set_shadowUpdateMode v h))) s
                          | None => s
                          end)
  end.

Definition when (c : bool) (m : M Component unit) : M Component unit :=
  if c then m else ret tt.

(** *** Methods of lines 249-261 *)

Definition updateShadow : M Component unit :=
  call_light Light.updateShadow (ret (Light.AVal VUndefined)).

Definition onEnable : M Component unit :=
  modify (with_framework (fun l => l ++ [super_onEnable])) >>
  call_light Light.setEnabled (ret (Light.AVal (VBool true))).

Definition onDisable : M Component unit :=
  modify (with_framework (fun l => l ++ [super_onDisable])) >>
  call_light Light.setEnabled (ret (Light.AVal (VBool false))).

(** Modelled from the spec: [onSetEnabled] is inherited from
    [pc.Component], which is outside the source.  Section 4.3: the
    enable transition fires when the component's flag and the entity's
    flag are both true, the reverse transition when the flag becomes
    false while the entity is enabled. *)
Definition onSetEnabled (oldValue newValue : Value) : M Component unit :=
  let* e := gets entity_enabled in
  when e (if truthy newValue then onEnable else onDisable).

(** Modelled from the spec: [system.changeType] is outside the source.
    Section 4.4: a factory "constructs a new rendering handle
    appropriate to newType and swaps it in as the instance's sole owned
    handle"; the new handle "does not inherit any configuration".  The
    handle is allocated at a fresh reference with an empty call log and
    stored as the [light] of the instance. *)
Definition changeType (oldType newType : Value) : M Component unit :=
  modify (with_framework (fun l => l ++ [system_changeType oldType newType])) >>
  modify (fun s =>
    let r := fresh (dom (heap s)) in
    let h := createLight pc newType in
    let h0 := {| Light.mask := Light.mask h; Light.enabled := Light.enabled h;
                 Light.shadowUpdateMode := Light.shadowUpdateMode h;
                 Light.calls := [] |} in
    with_data (insert "light" (VObj r)) (with_heap (insert r (OLight h0)) s)).

(** *** The on-change functions (lines 120-222) *)

(** [this.light.mask |= c] and [this.light.mask &= ~c]. *)
Definition mask_set (c : Z) : M Component unit :=
  update_light_mask (fun m => bit_or m c).
Definition mask_clear (c : Z) : M Component unit :=
  update_light_mask (fun m => bit_and m (bit_not c)).

(** [this.light.setMask(this.light.mask)]. *)
Definition push_mask : M Component unit :=
  call_light Light.setMask light_mask.

(** Lines 195-202. *)
Definition affectDynamic_changed (newValue : Value) : M Component unit :=
  (if truthy newValue
   then mask_set (MASK_DYNAMIC pc)
   else mask_clear (MASK_DYNAMIC pc)) >>
  push_mask.

(** Lines 203-212. *)
Definition affectLightmapped_changed (newValue : Value) : M Component unit :=
  (if truthy newValue
   then mask_set (MASK_BAKED pc) >>
        let* bake := get "bake" in
        when (truthy bake) (mask_clear (MASK_LIGHTMAP pc))
   else mask_clear (MASK_BAKED pc) >>
        let* bake := get "bake" in
        when (truthy bake) (mask_set (MASK_LIGHTMAP pc))) >>
  push_mask.

(** Lines 213-222. *)
Definition bake_changed (newValue : Value) : M Component unit :=
  (if truthy newValue
   then mask_set (MASK_LIGHTMAP pc) >>
        let* affectLightmapped := get "affectLightmapped" in
        when (truthy affectLightmapped) (mask_clear (MASK_BAKED pc))
   else mask_clear (MASK_LIGHTMAP pc) >>
        let* affectLightmapped := get "affectLightmapped" in
        when (truthy affectLightmapped) (mask_set (MASK_BAKED pc))) >>
  push_mask.

(** [-0.01 * newValue] of line 148. *)
Definition scaled_bias (newValue : Value) : Value :=
  VNum (PrimFloat.opp 0.01 * ToNumber newValue).

Section Accessors.

(** [this.refreshProperties()], tied to the method below. *)
Variable refresh : M Component unit.

(** [setFunc.call(this, newValue, oldValue)]. *)
Definition call (f : SetFunc) (newValue oldValue : Value) : M Component unit :=
  match f with
  | on_enabled => onSetEnabled oldValue newValue
  | on_type =>
      if strict_eq oldValue newValue then ret tt
      else changeType oldValue newValue >> refresh
  | forward m => call_light m (ret (Light.AVal newValue))
  | on_shadowBias =>
      call_light Light.setShadowBias (ret (Light.AVal (scaled_bias newValue)))
  | on_shadowUpdateMode => assign_shadowUpdateMode newValue
  | on_affectDynamic => affectDynamic_changed newValue
  | on_affectLightmapped => affectLightmapped_changed newValue
  | on_bake => bake_changed newValue
  end.

(** The setter of lines 104-110. *)
Definition property_set (name : string) (setFunc : option SetFunc)
    (value : Value) : M Component unit :=
  let* oldValue := gets (fun s => read (data s) name) in
  if strict_eq oldValue value then ret tt
  else
    modify (with_data (insert name value)) >>
    match setFunc with
    | Some f =>
        modify (with_fired (fun l =>
          l ++ [{| d_name := name; d_value := value; d_oldValue := oldValue |}])) >>
        call f value oldValue
    | None => ret tt
    end.

(** [this.enabled = value], as the alias setter does on line 234. *)
Definition set_enabled (value : Value) : M Component unit :=
  match prototype R !! "enabled" with
  | Some (Property name setFunc) => property_set name setFunc value
  | Some EnableAlias => diverge
  | None => modify (with_own (insert "enabled" value))
  end.

(** [this[key] = value]. *)
Definition set (key : string) (value : Value) : M Component unit :=
  match prototype R !! key with
  | Some (Property name setFunc) => property_set name setFunc value
  | Some EnableAlias => console_warn enable_set_warning >> set_enabled value
  | None => modify (with_own (insert key value))
  end.

End Accessors.

(** Lines 239-247.  [fuel] bounds how deeply [refreshProperties] may
    nest (through the handler of [type]). *)
Fixpoint refreshProperties (fuel : nat) : M Component unit :=
  match fuel with
  | O => diverge
  | S n =>
      for_each (_props R) (fun name =>
        let* v := get name in
        set (refreshProperties n) name v) >>
      let* enabled := get "enabled" in
      when (truthy enabled)
        (let* e := gets entity_enabled in
         when e onEnable)
  end.

(** A property write from outside: [component[key] = value]. *)
Definition assign (fuel : nat) (key : string) (value : Value) : M Component unit :=
  set (refreshProperties fuel) key value.

(** Modelled from the spec: construction is outside the source (the
    constructor of lines 115-116 is empty and the exported arrays are
    consumed elsewhere).  Section 3: "a mapping from property name to
    current value, one entry per registered descriptor, initialized to
    each descriptor's default value at construction". *)
Definition construct (entityEnabled : bool) : Component :=
  {| data := list_to_map (zip (_props R) (_propsDefault R));
     own := ∅;
     entity_enabled := entityEnabled;
     heap := {[ white pc := OColor 1 1 1 1 ]};
     console := [];
     fired := [];
     framework := [] |}.

End Instance.

(** ** A concrete host, to run the model *)

Definition sample_light : Light.t :=
  {| Light.mask := 1; Light.enabled := false;
     Light.shadowUpdateMode := VNum 2; Light.calls := [] |}.

Definition sample_pc : Host :=
  {| MASK_DYNAMIC := 1; MASK_BAKED := 2; MASK_LIGHTMAP := 4;
     LIGHTFALLOFF_LINEAR := VNum 0; SHADOW_DEPTH := VNum 0;
     BLUR_GAUSSIAN := VNum 1; SHADOWUPDATE_REALTIME := VNum 2;
     white := 0%nat;
     to_number_other := fun _ => nan;
     createLight := fun _ => sample_light |}.

(** Attaching a handle to an instance: the handle is allocated at a fresh
    reference and stored as the [light] of the instance. *)
Definition attach (h : Light.t) (s : Component) : Component :=
  let r := fresh (dom (heap s)) in
  with_data (insert "light" (VObj r)) (with_heap (insert r (OLight h)) s).

(** A fresh instance on an enabled entity, with a handle attached. *)
Definition sample : Component :=
  attach sample_light (construct sample_pc (LightComponent sample_pc) true).

(** ** Observations used in the statements *)

(** The state a call leaves when it returns normally. *)
Definition completed {S A} (c : Completion S A) : option S :=
  match c with
  | Normal _ s => Some s
  | _ => None
  end.

(** The same completion, its state seen through [f]. *)
Definition map_state {S A} (f : S -> S) (c : Completion S A) : Completion S A :=
  match c with
  | Normal a s => Normal a (f s)
  | Throw s => Throw (f s)
  | Exhausted => Exhausted
  end.

(** The handle the instance owns. *)
Definition the_light (s : Component) : option Light.t :=
  snd <$> light_at s (read (data s) "light").

(** The three flag properties and the sequences of writes to them. *)
Inductive Flag : Set := affectDynamic | affectLightmapped | bake.

Definition flag_name (f : Flag) : string :=
  match f with
  | affectDynamic => "affectDynamic"
  | affectLightmapped => "affectLightmapped"
  | bake => "bake"
  end.

Definition write_flags (pc : Host) (fuel : nat) (ws : list (Flag * bool)) : M Component unit :=
  for_each ws (fun w => assign pc (LightComponent pc) fuel (flag_name (fst w)) (VBool (snd w))).

(** The stored values of the three flags. *)
Definition flags (s : Component) : Value * Value * Value :=
  (read (data s) "affectDynamic", read (data s) "affectLightmapped", read (data s) "bake").

(** The DYNAMIC, BAKED and LIGHTMAP bits of a mask. *)
Definition mask_bits (pc : Host) (m : Z) : bool * bool * bool :=
  (has_bits m (MASK_DYNAMIC pc), has_bits m (MASK_BAKED pc), has_bits m (MASK_LIGHTMAP pc)).

(** The three constants are non-empty and share no bit. *)
Definition distinct_flags (pc : Host) : Prop :=
  has_bits (MASK_DYNAMIC pc) (MASK_DYNAMIC pc) = true /\
  has_bits (MASK_BAKED pc) (MASK_BAKED pc) = true /\
  has_bits (MASK_LIGHTMAP pc) (MASK_LIGHTMAP pc) = true /\
  has_bits (MASK_DYNAMIC pc) (MASK_BAKED pc) = false /\
  has_bits (MASK_DYNAMIC pc) (MASK_LIGHTMAP pc) = false /\
  has_bits (MASK_BAKED pc) (MASK_LIGHTMAP pc) = false.

(** What the handlers maintain between the flags and the mask: DYNAMIC
    follows [affectDynamic]; BAKED follows [affectLightmapped] and
    LIGHTMAP follows [bake] unless both flags are true, and then exactly
    one of the two bits is set. *)
Definition resolved (pc : Host) (s : Component) : bool :=
  match the_light s, flags s with
  | Some h, (VBool aD, VBool aL, VBool bk) =>
      let '(d, b, l) := mask_bits pc (Light.mask h) in
      Bool.eqb d aD &&
      (if aL && bk then xorb b l else Bool.eqb b aL && Bool.eqb l bk)
  | _, _ => false
  end.

(** No stored value is a NaN: each is [===] to itself. *)
Definition self_equal (s : Component) : Prop :=
  forall name : string, strict_eq (read (data s) name) (read (data s) name) = true.

(** The instance owns the handle [h], stored at reference [r]. *)
Definition lit (s : Component) (r : nat) (h : Light.t) : Prop :=
  read (data s) "light" = VObj r /\ heap s !! r = Some (OLight h).

(** The state in which the object at [r] is the handle [h]. *)
Definition relight (r : nat) (h : Light.t) (s : Component) : Component :=
  with_heap (insert r (OLight h)) s.

(** The record of one dispatch appended to the trace. *)
Definition dispatched (name : string) (value oldValue : Value) (s : Component) : Component :=
  with_fired (fun l => l ++ [{| d_name := name; d_value := value; d_oldValue := oldValue |}]) s.

(** The mask each flag handler computes before it calls [setMask], from
    the mask before, the truth of the value written and the truth of the
    stored cross flag. *)
Definition dynamic_mask (pc : Host) (v : bool) (m : Z) : Z :=
  if v then bit_or m (MASK_DYNAMIC pc)
  else bit_and m (bit_not (MASK_DYNAMIC pc)).

Definition lightmapped_mask (pc : Host) (v bake : bool) (m : Z) : Z :=
  if v
  then let m1 := bit_or m (MASK_BAKED pc) in
       if bake then bit_and m1 (bit_not (MASK_LIGHTMAP pc)) else m1
  else let m1 := bit_and m (bit_not (MASK_BAKED pc)) in
       if bake then bit_or m1 (MASK_LIGHTMAP pc) else m1.

Definition bake_mask (pc : Host) (v affectLightmapped : bool) (m : Z) : Z :=
  if v
  then let m1 := bit_or m (MASK_LIGHTMAP pc) in
       if affectLightmapped then bit_and m1 (bit_not (MASK_BAKED pc)) else m1
  else let m1 := bit_and m (bit_not (MASK_LIGHTMAP pc)) in
       if affectLightmapped then bit_or m1 (MASK_BAKED pc) else m1.

(** The handle after its mask became [m] and [setMask(m)] was called. *)
Definition masked (m : Z) (h : Light.t) : Light.t :=
  {| Light.mask := int32 m; Light.enabled := Light.enabled h;
     Light.shadowUpdateMode := Light.shadowUpdateMode h;
     Light.calls := Light.calls h ++ [(Light.setMask, Light.AInt m)] |}.

(** [resolved] on explicit flags and bits. *)
Definition agrees (aD aL bk : bool) (bits : bool * bool * bool) : bool :=
  let '(d, b, l) := bits in
  Bool.eqb d aD && (if aL && bk then xorb b l else Bool.eqb b aL && Bool.eqb l bk).

(** The state after [console.warn(msg)]. *)
Definition warned (msg : string) (s : Component) : Component :=
  with_console (fun l => l ++ [msg]) s.

(** The registry of the sample host. *)
Definition sample_registry : Registry := LightComponent sample_pc.

(** The sample instance after [bake] and then [affectLightmapped] were
    set to [true], and the handle it owns then. *)
Definition sample_baked : Component :=
  default sample
    (completed (write_flags sample_pc 0 [(bake, true); (affectLightmapped, true)] sample)).

Definition sample_baked_light : Light.t :=
  default sample_light (the_light sample_baked).

(** The sample instance with a second white colour object on the heap. *)
Definition sample_two_whites : Component :=
  with_heap (insert 7%nat (OColor 1 1 1 1)) sample.

(** ** Relations between the state before and after a call *)

(** Every stored property other than [light] reads the same in [s'] as in
    [s]. *)
Definition same_store (s s' : Component) : Prop :=
  forall k : string, k <> "light" -> read (data s') k = read (data s) k.

(** [P] relates the state before a call to the state after it, however the
    call ends. *)
Definition ends_in {A} (P : Component -> Component -> Prop) (m : M Component A) : Prop :=
  forall s, match m s with
            | Normal _ s' => P s s'
            | Throw s' => P s s'
            | Exhausted => True
            end.

(** The on-change functions whose first step is a member access on
    [this.light]: all but those of [enabled] and [type]. *)
Definition starts_on_light (f : SetFunc) : bool :=
  match f with
  | on_enabled | on_type => false
  | _ => true
  end.

(** Bit [i] belongs to none of the three flag constants. *)
Definition foreign_bit (pc : Host) (i : Z) : Prop :=
  0 <= i < 32 /\
  Z.testbit (MASK_DYNAMIC pc) i = false /\
  Z.testbit (MASK_BAKED pc) i = false /\
  Z.testbit (MASK_LIGHTMAP pc) i = false.

(** The sample instance before a handle is attached. *)
Definition sample_unlit : Component := construct sample_pc (LightComponent sample_pc) true.

(** * Properties *)

(** ** 32-bit masks *)

Section Bits.

Lemma low_mod z : low z = z mod 2 ^ 32.
Proof. apply Z.land_ones. lia. Qed.

Lemma low_testbit z i :
  0 <= i -> Z.testbit (low z) i = Z.testbit z i && (i <? 32).
Proof.
  intros Hi. unfold low. rewrite Z.land_spec.
  destruct (Z.ltb_spec i 32).
  - rewrite Z.ones_spec_low by lia. reflexivity.
  - rewrite Z.ones_spec_high by lia. reflexivity.
Qed.

Lemma low_int32 z : low (int32 z) = low z.
Proof.
  rewrite !low_mod. unfold int32.
  rewrite Zminus_mod_idemp_l. f_equal. lia.
Qed.

Lemma int32_low z : int32 (low z) = int32 z.
Proof.
  rewrite low_mod. unfold int32.
  rewrite Zplus_mod_idemp_l. reflexivity.
Qed.

Lemma int32_zero z : int32 z = 0 <-> low z = 0.
Proof.
  split; intros E.
  - rewrite <- low_int32, E. reflexivity.
  - rewrite <- int32_low, E. reflexivity.
Qed.

Lemma testbit_int32 z i : 0 <= i < 32 -> Z.testbit (int32 z) i = Z.testbit z i.
Proof.
  intros Hi.
  pose proof (f_equal (fun x => Z.testbit x i) (low_int32 z)) as E. cbv beta in E.
  rewrite !low_testbit in E by lia.
  destruct (Z.ltb_spec i 32); [|lia]. rewrite !andb_true_r in E. exact E.
Qed.

(** Integers with the same low 32 bits have the same low word. *)
Lemma low_ext a b :
  (forall i, 0 <= i < 32 -> Z.testbit a i = Z.testbit b i) -> low a = low b.
Proof.
  intros H. apply Z.bits_inj'. intros i Hi. rewrite !low_testbit by lia.
  destruct (Z.ltb_spec i 32); [rewrite H by lia|rewrite !andb_false_r]; reflexivity.
Qed.

Lemma low_zero_testbit a i : low a = 0 -> 0 <= i < 32 -> Z.testbit a i = false.
Proof.
  intros E Hi.
  pose proof (f_equal (fun x => Z.testbit x i) E) as E'. cbv beta in E'.
  rewrite low_testbit, Z.bits_0 in E' by lia.
  destruct (Z.ltb_spec i 32); [|lia]. rewrite andb_true_r in E'. exact E'.
Qed.

Lemma testbit_bit_or m c i :
  0 <= i < 32 -> Z.testbit (bit_or m c) i = Z.testbit m i || Z.testbit c i.
Proof.
  intros Hi. unfold bit_or.
  rewrite testbit_int32, Z.lor_spec, !testbit_int32 by lia. reflexivity.
Qed.

Lemma testbit_bit_clear m c i :
  0 <= i < 32 ->
  Z.testbit (bit_and m (bit_not c)) i = Z.testbit m i && negb (Z.testbit c i).
Proof.
  intros Hi. unfold bit_and, bit_not.
  rewrite testbit_int32, Z.land_spec, !testbit_int32, Z.lnot_spec, testbit_int32 by lia.
  reflexivity.
Qed.

(** [has_bits] looks at the low words only. *)
Lemma has_bits_low m c : has_bits m c = negb (low (Z.land m c) =? 0).
Proof.
  unfold has_bits, bit_and. f_equal.
  apply eq_true_iff_eq. rewrite !Z.eqb_eq, int32_zero.
  assert (E : low (Z.land (int32 m) (int32 c)) = low (Z.land m c)).
  { apply low_ext. intros i Hi. rewrite !Z.land_spec, !testbit_int32 by lia. reflexivity. }
  rewrite E. reflexivity.
Qed.

Lemma has_bits_ext m m' c :
  (forall i, 0 <= i < 32 -> Z.testbit c i = true -> Z.testbit m' i = Z.testbit m i) ->
  has_bits m' c = has_bits m c.
Proof.
  intros H. rewrite !has_bits_low. do 2 f_equal. apply low_ext. intros i Hi.
  rewrite !Z.land_spec. destruct (Z.testbit c i) eqn:Ec.
  - rewrite (H i Hi Ec). reflexivity.
  - rewrite !andb_false_r. reflexivity.
Qed.

Lemma has_bits_comm a b : has_bits a b = has_bits b a.
Proof. rewrite !has_bits_low, Z.land_comm. reflexivity. Qed.

Lemma has_bits_false_testbit a b i :
  has_bits a b = false -> 0 <= i < 32 -> Z.testbit a i = true -> Z.testbit b i = false.
Proof.
  rewrite has_bits_low. intros H Hi Ha.
  apply negb_false_iff, Z.eqb_eq in H.
  pose proof (low_zero_testbit _ i H Hi) as E. rewrite Z.land_spec, Ha in E. exact E.
Qed.

Lemma has_bits_int32 m c : has_bits (int32 m) c = has_bits m c.
Proof. apply has_bits_ext. intros i Hi _. apply testbit_int32, Hi. Qed.

(** Setting a flag: its own test succeeds, a disjoint one is unchanged. *)
Lemma has_bits_set_same m c : has_bits c c = true -> has_bits (bit_or m c) c = true.
Proof.
  intros H. rewrite <- H at 1. apply has_bits_ext. intros i Hi Hc.
  rewrite testbit_bit_or, Hc by lia. apply orb_true_r.
Qed.

Lemma has_bits_set_other m c d :
  has_bits c d = false -> has_bits (bit_or m c) d = has_bits m d.
Proof.
  intros H. apply has_bits_ext. intros i Hi Hd.
  rewrite testbit_bit_or by lia.
  destruct (Z.testbit c i) eqn:Ec; [|apply orb_false_r].
  rewrite (has_bits_false_testbit _ _ i H Hi Ec) in Hd. discriminate.
Qed.

Lemma has_bits_clear_same m c : has_bits (bit_and m (bit_not c)) c = false.
Proof.
  rewrite has_bits_low. apply negb_false_iff, Z.eqb_eq.
  change 0 with (low 0) at 1. apply low_ext. intros i Hi.
  rewrite Z.land_spec, testbit_bit_clear, Z.bits_0 by lia.
  destruct (Z.testbit m i), (Z.testbit c i); reflexivity.
Qed.

Lemma has_bits_clear_other m c d :
  has_bits c d = false -> has_bits (bit_and m (bit_not c)) d = has_bits m d.
Proof.
  intros H. apply has_bits_ext. intros i Hi Hd.
  rewrite testbit_bit_clear by lia.
  destruct (Z.testbit c i) eqn:Ec; [|apply andb_true_r].
  rewrite (has_bits_false_testbit _ _ i H Hi Ec) in Hd. discriminate.
Qed.

End Bits.

(** ** Running the accessors on an instance that owns a handle *)

Section Execution.

Context (pc : Host).
Local Abbreviation LC := (LightComponent pc).

Lemma accessor_light :
  prototype LC !! "light" = Some (Property "light" None).
Proof. vm_compute. reflexivity. Qed.

Lemma accessor_bake :
  prototype LC !! "bake" = Some (Property "bake" (Some on_bake)).
Proof. vm_compute. reflexivity. Qed.

Lemma accessor_affectLightmapped :
  prototype LC !! "affectLightmapped" = Some (Property "affectLightmapped" (Some on_affectLightmapped)).
Proof. vm_compute. reflexivity. Qed.

Lemma accessor_affectDynamic :
  prototype LC !! "affectDynamic" = Some (Property "affectDynamic" (Some on_affectDynamic)).
Proof. vm_compute. reflexivity. Qed.

Lemma get_property name f s :
  prototype LC !! name = Some (Property name f) ->
  get LC name s = Normal (read (data s) name) s.
Proof. intros H. unfold get. rewrite H. reflexivity. Qed.

Lemma lit_relight s r h h' : lit s r h -> lit (relight r h' s) r h'.
Proof.
  intros [Hl _]. split; [exact Hl|]. unfold relight, with_heap; cbn [heap].
  apply lookup_insert_eq.
Qed.

Lemma relight_relight r h1 h2 s : relight r h2 (relight r h1 s) = relight r h2 s.
Proof.
  unfold relight, with_heap; cbn [heap data own entity_enabled console fired framework].
  rewrite insert_insert_eq. reflexivity.
Qed.

Lemma bind_normal {S A B} (m : M S A) (k : A -> M S B) s a s' :
  m s = Normal a s' -> bind m k s = k a s'.
Proof. intros H. unfold bind. rewrite H. reflexivity. Qed.

Lemma get_light s : get LC "light" s = Normal (read (data s) "light") s.
Proof. apply (get_property _ _ _ accessor_light). Qed.

Lemma call_light_arg s r h m arg a :
  lit s r h -> arg s = Normal a s ->
  call_light pc LC m arg s = Normal tt (relight r (Light.receive (ToInt32 pc) m a h) s).
Proof.
  intros [Hv Hh] Ha. unfold call_light.
  rewrite (bind_normal _ _ _ _ _ (get_light s)), Hv.
  rewrite (bind_normal _ _ _ _ _ Ha).
  unfold light_at. rewrite Hh. reflexivity.
Qed.

Lemma call_light_lit s r h m a :
  lit s r h ->
  call_light pc LC m (ret a) s = Normal tt (relight r (Light.receive (ToInt32 pc) m a h) s).
Proof. intros Hl. apply call_light_arg; [exact Hl | reflexivity]. Qed.

Lemma light_mask_lit s r h :
  lit s r h -> light_mask LC s = Normal (Light.AInt (Light.mask h)) s.
Proof.
  intros [Hv Hh]. unfold light_mask.
  rewrite (bind_normal _ _ _ _ _ (get_light s)), Hv.
  unfold gets, light_at. rewrite Hh. reflexivity.
Qed.

Lemma update_light_mask_lit s r h f :
  lit s r h ->
  update_light_mask LC f s = Normal tt (relight r (Light.set_mask (f (Light.mask h)) h) s).
Proof.
  intros [Hv Hh]. unfold update_light_mask.
  rewrite (bind_normal _ _ _ _ _ (get_light s)), Hv.
  unfold modify, light_at. rewrite Hh. reflexivity.
Qed.

Lemma push_mask_lit s r h :
  lit s r h ->
  push_mask pc LC s = Normal tt (relight r (masked (Light.mask h) h) s).
Proof.
  intros Hl. unfold push_mask.
  rewrite (call_light_arg _ _ _ _ _ _ Hl (light_mask_lit _ _ _ Hl)). reflexivity.
Qed.

Lemma affectDynamic_changed_lit s r h v :
  lit s r h ->
  affectDynamic_changed pc LC v s =
  Normal tt (relight r (masked (dynamic_mask pc (truthy v) (Light.mask h)) h) s).
Proof.
  intros Hl. unfold affectDynamic_changed, dynamic_mask, mask_set, mask_clear, bind.
  destruct (truthy v);
    rewrite (update_light_mask_lit _ _ _ _ Hl);
    erewrite push_mask_lit by (eapply lit_relight, Hl);
    rewrite relight_relight; reflexivity.
Qed.

Lemma affectLightmapped_changed_lit s r h v :
  lit s r h ->
  affectLightmapped_changed pc LC v s =
  Normal tt (relight r (masked (lightmapped_mask pc (truthy v) (truthy (read (data s) "bake"))
                                  (Light.mask h)) h) s).
Proof.
  intros Hl. unfold affectLightmapped_changed, lightmapped_mask, mask_set, mask_clear, bind.
  destruct (truthy v);
    rewrite (update_light_mask_lit _ _ _ _ Hl);
    rewrite (get_property _ _ _ accessor_bake);
    change (data (relight _ _ s)) with (data s);
    (destruct (truthy (read (data s) "bake")); unfold when;
     [ erewrite update_light_mask_lit by (eapply lit_relight, Hl); rewrite relight_relight
     | unfold ret ]);
    erewrite push_mask_lit by (eapply lit_relight, Hl);
    rewrite relight_relight; reflexivity.
Qed.

Lemma bake_changed_lit s r h v :
  lit s r h ->
  bake_changed pc LC v s =
  Normal tt (relight r (masked (bake_mask pc (truthy v) (truthy (read (data s) "affectLightmapped"))
                                  (Light.mask h)) h) s).
Proof.
  intros Hl. unfold bake_changed, bake_mask, mask_set, mask_clear, bind.
  destruct (truthy v);
    rewrite (update_light_mask_lit _ _ _ _ Hl);
    rewrite (get_property _ _ _ accessor_affectLightmapped);
    change (data (relight _ _ s)) with (data s);
    (destruct (truthy (read (data s) "affectLightmapped")); unfold when;
     [ erewrite update_light_mask_lit by (eapply lit_relight, Hl); rewrite relight_relight
     | unfold ret ]);
    erewrite push_mask_lit by (eapply lit_relight, Hl);
    rewrite relight_relight; reflexivity.
Qed.

End Execution.

(** ** Writes to registered properties *)

Section Writes.

Context (pc : Host).
Local Abbreviation LC := (LightComponent pc).

Lemma assign_same name f v s fuel :
  prototype LC !! name = Some (Property name f) ->
  strict_eq (read (data s) name) v = true ->
  assign pc LC fuel name v s = Normal tt s.
Proof.
  intros Ha He. unfold assign, set. rewrite Ha. unfold property_set, bind, gets.
  rewrite He. reflexivity.
Qed.

Lemma assign_changed name f v s fuel :
  prototype LC !! name = Some (Property name (Some f)) ->
  strict_eq (read (data s) name) v = false ->
  assign pc LC fuel name v s =
  call pc LC (refreshProperties pc LC fuel) f v (read (data s) name)
    (dispatched name v (read (data s) name) (with_data (insert name v) s)).
Proof.
  intros Ha He. unfold assign, set. rewrite Ha. unfold property_set, bind, gets.
  rewrite He. reflexivity.
Qed.

Lemma read_insert (o : gmap string Value) name v : read (<[name := v]> o) name = v.
Proof. unfold read. rewrite lookup_insert_eq. reflexivity. Qed.

Lemma read_insert_ne (o : gmap string Value) name name' v :
  name <> name' -> read (<[name := v]> o) name' = read o name'.
Proof. intros H. unfold read. rewrite lookup_insert_ne by exact H. reflexivity. Qed.

Lemma lit_written s r h name v o :
  name <> "light" -> lit s r h ->
  lit (dispatched name v o (with_data (insert name v) s)) r h.
Proof.
  intros Hn [Hv Hh]. split; [|exact Hh].
  cbn [dispatched with_fired with_data data]. rewrite read_insert_ne by exact Hn. exact Hv.
Qed.

Lemma the_light_lit s h : the_light s = Some h <-> exists r, lit s r h.
Proof.
  unfold the_light, lit, light_at. split.
  - destruct (read (data s) "light") as [| | | | |r]; try discriminate.
    destruct (heap s !! r) as [[h'| |]|] eqn:E; try discriminate.
    cbn. intros [= ->]. exists r. split; [reflexivity | exact E].
  - intros [r [-> ->]]. reflexivity.
Qed.

(** The bits each handler leaves: the table of the resolution rule. *)
Section Resolution.
Hypothesis distinct : distinct_flags pc.

Lemma dynamic_mask_bits v m :
  mask_bits pc (dynamic_mask pc v m) =
  (v, has_bits m (MASK_BAKED pc), has_bits m (MASK_LIGHTMAP pc)).
Proof.
  destruct distinct as (HD & HB & HL & HDB & HDL & HBL).
  unfold mask_bits, dynamic_mask. destruct v.
  - rewrite has_bits_set_same, !has_bits_set_other by assumption. reflexivity.
  - rewrite has_bits_clear_same, !has_bits_clear_other by assumption. reflexivity.
Qed.

Lemma lightmapped_mask_bits v bk m :
  mask_bits pc (lightmapped_mask pc v bk m) =
  (has_bits m (MASK_DYNAMIC pc), v,
   if bk then negb v else has_bits m (MASK_LIGHTMAP pc)).
Proof.
  destruct distinct as (HD & HB & HL & HDB & HDL & HBL).
  pose proof HDB as HBD. rewrite has_bits_comm in HBD.
  pose proof HDL as HLD. rewrite has_bits_comm in HLD.
  pose proof HBL as HLB. rewrite has_bits_comm in HLB.
  unfold mask_bits, lightmapped_mask. destruct v, bk; cbn [negb];
    rewrite ?has_bits_clear_same, ?has_bits_set_same,
            ?has_bits_set_other, ?has_bits_clear_other,
            ?has_bits_clear_same, ?has_bits_set_same,
            ?has_bits_set_other, ?has_bits_clear_other by assumption;
    reflexivity.
Qed.

Lemma bake_mask_bits v aL m :
  mask_bits pc (bake_mask pc v aL m) =
  (has_bits m (MASK_DYNAMIC pc),
   (if aL then negb v else has_bits m (MASK_BAKED pc)), v).
Proof.
  destruct distinct as (HD & HB & HL & HDB & HDL & HBL).
  pose proof HDB as HBD. rewrite has_bits_comm in HBD.
  pose proof HDL as HLD. rewrite has_bits_comm in HLD.
  pose proof HBL as HLB. rewrite has_bits_comm in HLB.
  unfold mask_bits, bake_mask. destruct v, aL; cbn [negb];
    rewrite ?has_bits_clear_same, ?has_bits_set_same,
            ?has_bits_set_other, ?has_bits_clear_other,
            ?has_bits_clear_same, ?has_bits_set_same,
            ?has_bits_set_other, ?has_bits_clear_other by assumption;
    reflexivity.
Qed.

End Resolution.

Lemma mask_bits_int32 m : mask_bits pc (int32 m) = mask_bits pc m.
Proof. unfold mask_bits. rewrite !has_bits_int32. reflexivity. Qed.

(** A write to a flag, on an instance that owns a handle. *)
Lemma assign_affectDynamic s r h v fuel :
  lit s r h ->
  strict_eq (read (data s) "affectDynamic") v = false ->
  assign pc LC fuel "affectDynamic" v s =
  Normal tt (relight r (masked (dynamic_mask pc (truthy v) (Light.mask h)) h)
               (dispatched "affectDynamic" v (read (data s) "affectDynamic")
                  (with_data (insert "affectDynamic" v) s))).
Proof.
  intros Hl He. rewrite (assign_changed _ _ _ _ _ (accessor_affectDynamic pc) He).
  cbn [call]. apply affectDynamic_changed_lit, lit_written; [discriminate | exact Hl].
Qed.

Lemma assign_affectLightmapped s r h v fuel :
  lit s r h ->
  strict_eq (read (data s) "affectLightmapped") v = false ->
  assign pc LC fuel "affectLightmapped" v s =
  Normal tt (relight r (masked (lightmapped_mask pc (truthy v) (truthy (read (data s) "bake"))
                                  (Light.mask h)) h)
               (dispatched "affectLightmapped" v (read (data s) "affectLightmapped")
                  (with_data (insert "affectLightmapped" v) s))).
Proof.
  intros Hl He. rewrite (assign_changed _ _ _ _ _ (accessor_affectLightmapped pc) He).
  cbn [call]. erewrite affectLightmapped_changed_lit by (apply lit_written; [discriminate | exact Hl]).
  cbn [dispatched with_fired with_data data]. rewrite read_insert_ne by discriminate. reflexivity.
Qed.

Lemma assign_bake s r h v fuel :
  lit s r h ->
  strict_eq (read (data s) "bake") v = false ->
  assign pc LC fuel "bake" v s =
  Normal tt (relight r (masked (bake_mask pc (truthy v) (truthy (read (data s) "affectLightmapped"))
                                  (Light.mask h)) h)
               (dispatched "bake" v (read (data s) "bake")
                  (with_data (insert "bake" v) s))).
Proof.
  intros Hl He. rewrite (assign_changed _ _ _ _ _ (accessor_bake pc) He).
  cbn [call]. erewrite bake_changed_lit by (apply lit_written; [discriminate | exact Hl]).
  cbn [dispatched with_fired with_data data]. rewrite read_insert_ne by discriminate. reflexivity.
Qed.

End Writes.

(** ** The mask bits under writes to the flags *)

Section MaskClaims.

Context (pc : Host).
Local Abbreviation LC := (LightComponent pc).

Lemma dynamic_mask_outside v m i :
  0 <= i < 32 -> Z.testbit (MASK_DYNAMIC pc) i = false ->
  Z.testbit (dynamic_mask pc v m) i = Z.testbit m i.
Proof.
  intros Hi Hc. unfold dynamic_mask. destruct v.
  - rewrite testbit_bit_or, Hc by exact Hi. apply orb_false_r.
  - rewrite testbit_bit_clear, Hc by exact Hi. apply andb_true_r.
Qed.

Lemma lightmapped_mask_outside v m i :
  0 <= i < 32 -> Z.testbit (MASK_BAKED pc) i = false ->
  Z.testbit (lightmapped_mask pc v false m) i = Z.testbit m i.
Proof.
  intros Hi Hc. unfold lightmapped_mask. destruct v.
  - rewrite testbit_bit_or, Hc by exact Hi. apply orb_false_r.
  - rewrite testbit_bit_clear, Hc by exact Hi. apply andb_true_r.
Qed.

(** C4. Writing any value to [affectDynamic], whatever the stored flags
    and the mask, returns normally and leaves the BAKED and LIGHTMAP
    tests of the handle's mask as they were; more precisely every bit
    of the mask outside [MASK_DYNAMIC] keeps its value. *)
Theorem affectDynamic_write_touches_only_dynamic s r h v fuel :
  distinct_flags pc ->
  lit s r h ->
  exists s' h',
    assign pc LC fuel "affectDynamic" v s = Normal tt s' /\
    lit s' r h' /\
    has_bits (Light.mask h') (MASK_BAKED pc) = has_bits (Light.mask h) (MASK_BAKED pc) /\
    has_bits (Light.mask h') (MASK_LIGHTMAP pc) = has_bits (Light.mask h) (MASK_LIGHTMAP pc) /\
    (forall i, 0 <= i < 32 -> Z.testbit (MASK_DYNAMIC pc) i = false ->
       Z.testbit (Light.mask h') i = Z.testbit (Light.mask h) i).
Proof.
  intros Hd Hl.
  destruct (strict_eq (read (data s) "affectDynamic") v) eqn:He.
  - exists s, h. rewrite (assign_same _ _ _ _ _ _ (accessor_affectDynamic pc) He).
    repeat split; [exact (proj1 Hl) | exact (proj2 Hl)].
  - eexists _, _. rewrite (assign_affectDynamic _ _ _ _ _ _ Hl He).
    split; [reflexivity|]. split.
    { eapply lit_relight, lit_written; [discriminate | exact Hl]. }
    pose proof (dynamic_mask_bits pc Hd (truthy v) (Light.mask h)) as Hb.
    unfold mask_bits in Hb. injection Hb as _ HB HL.
    cbn [masked Light.mask]. rewrite !has_bits_int32.
    repeat split; [exact HB | exact HL |].
    intros i Hi Hc. rewrite testbit_int32 by exact Hi.
    apply dynamic_mask_outside; assumption.
Qed.

(** C3. With [bake] and [affectLightmapped] both stored as [true],
    writing [false] to [affectLightmapped] leaves the mask with BAKED
    cleared and LIGHTMAP set.  With [bake] stored as [false], a write of
    any value to [affectLightmapped] leaves the LIGHTMAP test, and every
    bit outside [MASK_BAKED], as it was. *)
Theorem affectLightmapped_write_resolution s r h fuel :
  distinct_flags pc ->
  lit s r h ->
  (read (data s) "bake" = VBool true ->
   read (data s) "affectLightmapped" = VBool true ->
   exists s' h',
     assign pc LC fuel "affectLightmapped" (VBool false) s = Normal tt s' /\
     lit s' r h' /\
     has_bits (Light.mask h') (MASK_BAKED pc) = false /\
     has_bits (Light.mask h') (MASK_LIGHTMAP pc) = true) /\
  (read (data s) "bake" = VBool false ->
   forall v, exists s' h',
     assign pc LC fuel "affectLightmapped" v s = Normal tt s' /\
     lit s' r h' /\
     has_bits (Light.mask h') (MASK_LIGHTMAP pc) = has_bits (Light.mask h) (MASK_LIGHTMAP pc) /\
     (forall i, 0 <= i < 32 -> Z.testbit (MASK_BAKED pc) i = false ->
        Z.testbit (Light.mask h') i = Z.testbit (Light.mask h) i)).
Proof.
  intros Hd Hl. split.
  - intros Hbake HaL.
    assert (He : strict_eq (read (data s) "affectLightmapped") (VBool false) = false)
      by (rewrite HaL; reflexivity).
    eexists _, _. rewrite (assign_affectLightmapped _ _ _ _ _ _ Hl He).
    split; [reflexivity|]. split.
    { eapply lit_relight, lit_written; [discriminate | exact Hl]. }
    rewrite Hbake. cbn [truthy].
    pose proof (lightmapped_mask_bits pc Hd false true (Light.mask h)) as Hb.
    unfold mask_bits in Hb. injection Hb as _ HB HL.
    cbn [masked Light.mask]. rewrite !has_bits_int32. split; assumption.
  - intros Hbake v.
    destruct (strict_eq (read (data s) "affectLightmapped") v) eqn:He.
    + exists s, h. rewrite (assign_same _ _ _ _ _ _ (accessor_affectLightmapped pc) He).
      repeat split; [exact (proj1 Hl) | exact (proj2 Hl)].
    + eexists _, _. rewrite (assign_affectLightmapped _ _ _ _ _ _ Hl He).
      split; [reflexivity|]. split.
      { eapply lit_relight, lit_written; [discriminate | exact Hl]. }
      rewrite Hbake. cbn [truthy].
      pose proof (lightmapped_mask_bits pc Hd (truthy v) false (Light.mask h)) as Hb.
      unfold mask_bits in Hb. injection Hb as _ _ HL.
      cbn [masked Light.mask]. rewrite !has_bits_int32.
      split; [exact HL|].
      intros i Hi Hc. rewrite testbit_int32 by exact Hi.
      apply lightmapped_mask_outside; assumption.
Qed.

End MaskClaims.

(** ** What the flag handlers maintain *)

Section Resolved.

Context (pc : Host).
Local Abbreviation LC := (LightComponent pc).

Lemma resolved_intro s r h aD aL bk :
  lit s r h ->
  flags s = (VBool aD, VBool aL, VBool bk) ->
  resolved pc s = agrees aD aL bk (mask_bits pc (Light.mask h)).
Proof.
  intros Hl Hf. unfold resolved.
  rewrite (proj2 (the_light_lit s h) (ex_intro _ r Hl)), Hf. reflexivity.
Qed.

Lemma resolved_elim s :
  resolved pc s = true ->
  exists r h aD aL bk,
    lit s r h /\ flags s = (VBool aD, VBool aL, VBool bk) /\
    agrees aD aL bk (mask_bits pc (Light.mask h)) = true.
Proof.
  unfold resolved. intros H.
  destruct (the_light s) as [h|] eqn:Hl; [|discriminate].
  apply the_light_lit in Hl as [r Hl].
  destruct (flags s) as [[x y] z] eqn:Hf.
  destruct x as [| |aD| | |]; try discriminate.
  destruct y as [| |aL| | |]; try discriminate.
  destruct z as [| |bk| | |]; try discriminate.
  exists r, h, aD, aL, bk. repeat split; [exact (proj1 Hl) | exact (proj2 Hl) | exact H].
Qed.

Lemma flags_eq s aD aL bk :
  flags s = (VBool aD, VBool aL, VBool bk) ->
  read (data s) "affectDynamic" = VBool aD /\
  read (data s) "affectLightmapped" = VBool aL /\
  read (data s) "bake" = VBool bk.
Proof. unfold flags. intros [= -> -> ->]. repeat split. Qed.

Lemma write_flag_resolved s f v fuel :
  distinct_flags pc ->
  resolved pc s = true ->
  exists s',
    assign pc LC fuel (flag_name f) (VBool v) s = Normal tt s' /\
    resolved pc s' = true.
Proof.
  intros Hd Hr.
  destruct (resolved_elim _ Hr) as (r & h & aD & aL & bk & Hl & Hf & Ha).
  destruct (flags_eq _ _ _ _ Hf) as (EaD & EaL & Ebk).
  destruct (mask_bits pc (Light.mask h)) as [[d b] l] eqn:Hb.
  unfold mask_bits in Hb. injection Hb as Hd0 Hb0 Hl0.
  destruct f; cbn [flag_name].
  - destruct (strict_eq (read (data s) "affectDynamic") (VBool v)) eqn:He.
    + exists s. rewrite (assign_same _ _ _ _ _ _ (accessor_affectDynamic pc) He). auto.
    + eexists. rewrite (assign_affectDynamic _ _ _ _ _ _ Hl He). split; [reflexivity|].
      erewrite (resolved_intro _ r _ v aL bk).
      2:{ eapply lit_relight, lit_written; [discriminate | exact Hl]. }
      2:{ unfold flags. cbn [relight with_heap dispatched with_fired with_data data].
          rewrite read_insert, !read_insert_ne, EaL, Ebk by discriminate. reflexivity. }
      cbn [masked Light.mask truthy]. rewrite mask_bits_int32, (dynamic_mask_bits _ Hd).
      rewrite Hb0, Hl0. cbn [agrees] in *.
      destruct v, aD, aL, bk, d, b, l; try discriminate; reflexivity.
  - destruct (strict_eq (read (data s) "affectLightmapped") (VBool v)) eqn:He.
    + exists s. rewrite (assign_same _ _ _ _ _ _ (accessor_affectLightmapped pc) He). auto.
    + eexists. rewrite (assign_affectLightmapped _ _ _ _ _ _ Hl He). split; [reflexivity|].
      erewrite (resolved_intro _ r _ aD v bk).
      2:{ eapply lit_relight, lit_written; [discriminate | exact Hl]. }
      2:{ unfold flags. cbn [relight with_heap dispatched with_fired with_data data].
          rewrite read_insert, !read_insert_ne, EaD, Ebk by discriminate. reflexivity. }
      cbn [masked Light.mask]. rewrite Ebk. cbn [truthy].
      rewrite mask_bits_int32, (lightmapped_mask_bits _ Hd).
      rewrite Hd0, Hl0. cbn [agrees] in *.
      destruct v, aD, aL, bk, d, b, l; try discriminate; reflexivity.
  - destruct (strict_eq (read (data s) "bake") (VBool v)) eqn:He.
    + exists s. rewrite (assign_same _ _ _ _ _ _ (accessor_bake pc) He). auto.
    + eexists. rewrite (assign_bake _ _ _ _ _ _ Hl He). split; [reflexivity|].
      erewrite (resolved_intro _ r _ aD aL v).
      2:{ eapply lit_relight, lit_written; [discriminate | exact Hl]. }
      2:{ unfold flags. cbn [relight with_heap dispatched with_fired with_data data].
          rewrite read_insert, !read_insert_ne, EaD, EaL by discriminate. reflexivity. }
      cbn [masked Light.mask]. rewrite EaL. cbn [truthy].
      rewrite mask_bits_int32, (bake_mask_bits _ Hd).
      rewrite Hd0, Hb0. cbn [agrees] in *.
      destruct v, aD, aL, bk, d, b, l; try discriminate; reflexivity.
Qed.

Lemma write_flags_resolved ws : forall s fuel,
  distinct_flags pc ->
  resolved pc s = true ->
  exists s', write_flags pc fuel ws s = Normal tt s' /\ resolved pc s' = true.
Proof.
  induction ws as [|[f v] ws IH]; intros s fuel Hd Hr.
  - exists s. split; [reflexivity | exact Hr].
  - destruct (write_flag_resolved s f v fuel Hd Hr) as (s1 & E1 & R1).
    destruct (IH s1 fuel Hd R1) as (s2 & E2 & R2).
    exists s2. split; [|exact R2].
    unfold write_flags in *. cbn [for_each fst snd].
    rewrite (bind_normal _ _ _ _ _ E1). exact E2.
Qed.

Lemma accessor_mask :
  prototype LC !! "mask" = Some (Property "mask" (Some (forward Light.setMask))).
Proof. vm_compute. reflexivity. Qed.

(** C2 (amended). From a state in which the mask agrees with the flags,
    any sequence of boolean writes to [affectDynamic],
    [affectLightmapped] and [bake] returns normally and leaves a state
    in which DYNAMIC equals [affectDynamic], and BAKED equals
    [affectLightmapped] and LIGHTMAP equals [bake] unless both flags are
    true, when exactly one of BAKED and LIGHTMAP is set.  A write that
    changes the [mask] property hands the value to [setMask], which
    replaces the whole mask. *)
Theorem flag_writes_keep_mask_resolved s :
  distinct_flags pc ->
  resolved pc s = true ->
  (forall ws fuel, exists s',
     write_flags pc fuel ws s = Normal tt s' /\ resolved pc s' = true) /\
  (forall v fuel r h,
     lit s r h ->
     strict_eq (read (data s) "mask") v = false ->
     exists s' h',
       assign pc LC fuel "mask" v s = Normal tt s' /\
       lit s' r h' /\ flags s' = flags s /\
       Light.mask h' = ToInt32 pc v).
Proof.
  intros Hd Hr. split.
  - intros ws fuel. apply write_flags_resolved; assumption.
  - intros v fuel r h Hl He.
    eexists _, _. rewrite (assign_changed _ _ _ _ _ _ accessor_mask He). cbn [call].
    erewrite call_light_lit by (apply lit_written; [discriminate | exact Hl]).
    split; [reflexivity|]. split.
    { eapply lit_relight, lit_written; [discriminate | exact Hl]. }
    split; [|reflexivity].
    unfold flags. cbn [relight with_heap dispatched with_fired with_data data].
    rewrite !read_insert_ne by discriminate. reflexivity.
Qed.

End Resolved.

(** ** Single properties: storage, dispatch, defaults *)

(** The product [-0.01 * b] has the sign opposite to [b]'s, or is a NaN. *)
Lemma scaled_differs (b : float) :
  PrimFloat.is_nan b = false -> (PrimFloat.opp 0.01 * b)%float <> b.
Proof.
  intros Hn E. apply (f_equal Prim2SF) in E. rewrite mul_spec in E.
  unfold PrimFloat.is_nan in Hn. rewrite FloatAxioms.eqb_spec in Hn.
  set (c := Prim2SF (PrimFloat.opp 0.01)) in E. vm_compute in c. subst c.
  destruct (Prim2SF b) as [sb|sb| |sb mb eb].
  - destruct sb; discriminate.
  - destruct sb; discriminate.
  - discriminate.
  - unfold SF64mul, SFmul, binary_round_aux in E.
    destruct (shr_fexp _ _ _ _ _) as [mrs' e'] in E.
    destruct (shr_fexp _ _ _ _ _) as [mrs'' e''] in E.
    destruct (shr_m mrs''); [|destruct (e'' <=? _)|]; destruct sb; discriminate.
Qed.

Section Claims.

Context (pc : Host).
Local Abbreviation LC := (LightComponent pc).

Lemma accessor_shadowBias :
  prototype LC !! "shadowBias" = Some (Property "shadowBias" (Some on_shadowBias)).
Proof. vm_compute. reflexivity. Qed.

(** C10. A write of a new number [b] to [shadowBias] stores [b] and
    calls the handle's [setShadowBias] with [-0.01 * b]; reading the
    property gives [b] back.  Unless [b] is a NaN the argument of the
    call differs from [b]. *)
Theorem shadowBias_write_scales_the_bias s r h b fuel :
  lit s r h ->
  strict_eq (read (data s) "shadowBias") (VNum b) = false ->
  exists s' h',
    assign pc LC fuel "shadowBias" (VNum b) s = Normal tt s' /\
    lit s' r h' /\
    Light.calls h' =
      Light.calls h ++ [(Light.setShadowBias, Light.AVal (VNum (PrimFloat.opp 0.01 * b)))] /\
    get LC "shadowBias" s' = Normal (VNum b) s' /\
    (PrimFloat.is_nan b = false -> (PrimFloat.opp 0.01 * b)%float <> b).
Proof.
  intros Hl He. eexists _, _.
  rewrite (assign_changed _ _ _ _ _ _ accessor_shadowBias He). cbn [call].
  erewrite call_light_lit by (apply lit_written; [discriminate | exact Hl]).
  split; [reflexivity|]. split.
  { eapply lit_relight, lit_written; [discriminate | exact Hl]. }
  split; [reflexivity|]. split; [|apply scaled_differs].
  rewrite (get_property _ _ _ _ accessor_shadowBias).
  cbn [relight with_heap dispatched with_fired with_data data].
  rewrite read_insert. reflexivity.
Qed.

Lemma props_of_LightComponent :
  _props LC =
  ["enabled"; "light"; "type"; "color"; "intensity"; "castShadows";
   "shadowDistance"; "shadowResolution"; "shadowBias"; "normalOffsetBias";
   "range"; "innerConeAngle"; "outerConeAngle"; "falloffMode"; "shadowType";
   "vsmBlurSize"; "vsmBlurMode"; "vsmBias"; "cookie"; "cookieIntensity";
   "cookieFalloff"; "cookieChannel"; "shadowUpdateMode"; "mask";
   "affectDynamic"; "affectLightmapped"; "bake"].
Proof. vm_compute. reflexivity. Qed.

Lemma propsDefault_of_LightComponent :
  _propsDefault LC =
  [VBool true; VNull; VStr "directional"; VObj (white pc); VNum 1; VBool false;
   VNum 40; VNum 1024; VNum 0.05; VNum 0; VNum 10; VNum 40; VNum 45;
   LIGHTFALLOFF_LINEAR pc; SHADOW_DEPTH pc; VNum 11; BLUR_GAUSSIAN pc;
   VNum (0.01 * 0.25); VNull; VNum 1; VBool false; VStr "rgb";
   SHADOWUPDATE_REALTIME pc; VNum 1; VBool true; VBool false; VBool false].
Proof. vm_compute. reflexivity. Qed.

Lemma registered_accessor name :
  name ∈ _props LC ->
  exists setFunc, prototype LC !! name = Some (Property name setFunc).
Proof.
  rewrite props_of_LightComponent. intros H.
  repeat (apply elem_of_cons in H; destruct H as [-> | H];
          [eexists; vm_compute; reflexivity|]).
  apply elem_of_nil in H. contradiction.
Qed.

(** C6. For a registered property, a write of a value [===] to the
    stored one changes nothing: the state after is the state before, so
    nothing is stored and no on-change function runs.  A write of a
    reference to a different object goes through even when the two
    objects have the same contents: the new reference is stored and the
    on-change function of the property, if it has one, is invoked with
    the new and the old reference. *)
Theorem equal_write_is_noop name :
  name ∈ _props LC ->
  (forall v s fuel,
     strict_eq (read (data s) name) v = true ->
     assign pc LC fuel name v s = Normal tt s) /\
  (exists setFunc,
     prototype LC !! name = Some (Property name setFunc) /\
     forall r1 r2 o s fuel,
       read (data s) name = VObj r1 ->
       heap s !! r1 = Some o -> heap s !! r2 = Some o -> r1 <> r2 ->
       assign pc LC fuel name (VObj r2) s =
       match setFunc with
       | Some f =>
           call pc LC (refreshProperties pc LC fuel) f (VObj r2) (VObj r1)
             (dispatched name (VObj r2) (VObj r1) (with_data (insert name (VObj r2)) s))
       | None => Normal tt (with_data (insert name (VObj r2)) s)
       end).
Proof.
  intros Hr. destruct (registered_accessor _ Hr) as [f Ha]. split.
  - intros v s fuel He. exact (assign_same _ _ _ _ _ _ Ha He).
  - exists f. split; [exact Ha|].
    intros r1 r2 o s fuel Hv _ _ Hne.
    assert (He : strict_eq (read (data s) name) (VObj r2) = false).
    { rewrite Hv. cbn. apply Nat.eqb_neq. exact Hne. }
    destruct f as [f|].
    + rewrite (assign_changed _ _ _ _ _ _ Ha He), Hv. reflexivity.
    + unfold assign, set. rewrite Ha. unfold property_set, bind, gets.
      rewrite He. reflexivity.
Qed.

(** C9. On a freshly constructed instance every registered property
    reads as its declared default, and no on-change function has been
    invoked. *)
Theorem fresh_instance_has_defaults entityEnabled i P D :
  _props LC !! i = Some P ->
  _propsDefault LC !! i = Some D ->
  get LC P (construct pc LC entityEnabled) = Normal D (construct pc LC entityEnabled) /\
  fired (construct pc LC entityEnabled) = [].
Proof.
  intros HP HD. split; [|reflexivity].
  assert (HA : exists f, prototype LC !! P = Some (Property P f)).
  { apply registered_accessor, list_elem_of_lookup. exists i. exact HP. }
  destruct HA as [f HA]. rewrite (get_property _ _ _ _ HA). f_equal.
  cbn [construct data].
  rewrite props_of_LightComponent in HP. rewrite propsDefault_of_LightComponent in HD.
  assert (Hi : (i < 27)%nat) by (apply lookup_lt_Some in HP; exact HP).
  do 27 (destruct i as [|i];
         [ cbn in HP, HD; injection HP as <-; injection HD as <-;
           vm_compute; reflexivity |]).
  exfalso. lia.
Qed.

End Claims.

(** ** The deprecated alias, registration and refresh *)

Section Alias.

Context (pc : Host).
Local Abbreviation LC := (LightComponent pc).

Lemma accessor_enabled :
  prototype LC !! "enabled" = Some (Property "enabled" (Some on_enabled)).
Proof. vm_compute. reflexivity. Qed.

Lemma accessor_enable : prototype LC !! "enable" = Some EnableAlias.
Proof. vm_compute. reflexivity. Qed.

(** What the console holds has no influence on a call on the handle. *)
Lemma call_light_console g m a s :
  call_light pc LC m (ret a) (with_console g s) =
  map_state (with_console g) (call_light pc LC m (ret a) s).
Proof.
  unfold call_light.
  rewrite (bind_normal _ _ _ _ _ (get_light pc (with_console g s))).
  rewrite (bind_normal _ _ _ _ _ (get_light pc s)).
  cbn [with_console data].
  destruct (read (data s) "light") as [| | | | |r]; try reflexivity.
  unfold bind, ret, light_at. cbn [with_console heap].
  destruct (heap s !! r) as [[h| |]|]; reflexivity.
Qed.

Lemma property_set_enabled_console refresh g v s :
  property_set pc LC refresh "enabled" (Some on_enabled) v (with_console g s) =
  map_state (with_console g) (property_set pc LC refresh "enabled" (Some on_enabled) v s).
Proof.
  unfold property_set, bind, gets. cbn [with_console data].
  destruct (strict_eq (read (data s) "enabled") v); [reflexivity|].
  unfold modify. cbn [call]. unfold onSetEnabled, bind, gets, when.
  cbn [with_fired with_data with_console entity_enabled].
  destruct (entity_enabled s); [|reflexivity].
  destruct (truthy v); unfold onEnable, onDisable, bind, modify;
    match goal with
    | |- call_light _ _ ?m ?a ?s1 = map_state _ (call_light _ _ _ _ ?s2) =>
        change s1 with (with_console g s2)
    end; apply call_light_console.
Qed.

Lemma assign_enable_forwards v s fuel :
  assign pc LC fuel "enable" v s =
  map_state (warned enable_set_warning) (assign pc LC fuel "enabled" v s).
Proof.
  unfold assign, set. rewrite accessor_enable, accessor_enabled.
  unfold bind, console_warn, modify, set_enabled. rewrite accessor_enabled.
  apply property_set_enabled_console.
Qed.

Lemma assign_enabled_false s r h fuel :
  lit s r h ->
  entity_enabled s = true ->
  read (data s) "enabled" = VBool true ->
  assign pc LC fuel "enabled" (VBool false) s =
  Normal tt
    (relight r (Light.receive (ToInt32 pc) Light.setEnabled (Light.AVal (VBool false)) h)
       (with_framework (fun l => l ++ [super_onDisable])
          (dispatched "enabled" (VBool false) (VBool true)
             (with_data (insert "enabled" (VBool false)) s)))).
Proof.
  intros Hl He Hv.
  assert (Hs : strict_eq (read (data s) "enabled") (VBool false) = false)
    by (rewrite Hv; reflexivity).
  rewrite (assign_changed _ _ _ _ _ _ accessor_enabled Hs), Hv. cbn [call].
  unfold onSetEnabled, bind, gets, when.
  cbn [dispatched with_fired with_data entity_enabled]. rewrite He. cbn [truthy].
  unfold onDisable, bind, modify.
  apply call_light_lit. destruct Hl as [Hd Hh]. split; [|exact Hh].
  cbn [with_framework dispatched with_fired with_data data].
  rewrite read_insert_ne by discriminate. exact Hd.
Qed.

(** C7. A write to the deprecated [enable] behaves as the same write to
    [enabled], with one warning more on the console and nothing else
    different.  Writing [false] while the component and its entity are
    enabled leaves [enabled] stored as [false] and the handle disabled.
    Reading [enable] warns once and gives the stored [enabled]. *)
Theorem enable_is_a_warning_alias :
  (forall v s fuel,
     assign pc LC fuel "enable" v s =
     map_state (warned enable_set_warning) (assign pc LC fuel "enabled" v s)) /\
  (forall s r h fuel,
     lit s r h -> entity_enabled s = true -> read (data s) "enabled" = VBool true ->
     exists s' h',
       assign pc LC fuel "enabled" (VBool false) s = Normal tt s' /\
       assign pc LC fuel "enable" (VBool false) s =
         Normal tt (warned enable_set_warning s') /\
       read (data s') "enabled" = VBool false /\
       lit s' r h' /\ Light.enabled h' = false /\
       console s' = console s) /\
  (forall s,
     get LC "enable" s =
     Normal (read (data s) "enabled") (warned enable_get_warning s)).
Proof.
  split; [|split].
  - apply assign_enable_forwards.
  - intros s r h fuel Hl He Hv. eexists _, _.
    rewrite assign_enable_forwards, (assign_enabled_false _ _ _ _ Hl He Hv).
    split; [reflexivity|]. split; [reflexivity|]. split.
    { cbn [relight with_heap with_framework dispatched with_fired with_data data].
      apply read_insert. }
    split.
    { apply lit_relight with (h := h). destruct Hl as [Hd Hh]. split; [|exact Hh].
      cbn [with_framework dispatched with_fired with_data data].
      rewrite read_insert_ne by discriminate. exact Hd. }
    split; reflexivity.
  - intros s. unfold get. rewrite accessor_enable.
    unfold bind, console_warn, modify, get_enabled. rewrite accessor_enabled.
    reflexivity.
Qed.

(** Registering a name whose accessor is configurable goes through. *)
Lemma _defineProperty_configurable (R : Registry) name g d f :
  prototype R !! name = Some (Property name g) ->
  _defineProperty name d f R =
  Normal tt {| _props := _props R ++ [name];
               _propsDefault := _propsDefault R ++ [d];
               prototype := <[name := Property name f]> (prototype R) |}.
Proof.
  intros H. unfold _defineProperty, bind, modify, Object_defineProperty.
  cbn [prototype _props _propsDefault]. rewrite H. reflexivity.
Qed.

(** C8 (amended). Registering a name that is already registered does
    not fail: the call returns normally, a second descriptor is appended
    to [_props] and [_propsDefault], and the accessor pair of the name
    is replaced by the new one. *)
Theorem registering_twice_appends_and_overwrites name d f :
  name ∈ _props LC ->
  _defineProperty name d f LC =
  Normal tt {| _props := _props LC ++ [name];
               _propsDefault := _propsDefault LC ++ [d];
               prototype := <[name := Property name f]> (prototype LC) |}.
Proof.
  intros Hr. destruct (registered_accessor _ _ Hr) as [g Ha].
  exact (_defineProperty_configurable _ _ _ _ _ Ha).
Qed.

(** The loop of [refreshProperties] over properties whose stored values
    are equal to themselves does nothing at all. *)
Lemma refresh_loop_same refresh names : forall s,
  (forall name, name ∈ names -> exists f, prototype LC !! name = Some (Property name f)) ->
  self_equal s ->
  for_each names (fun name => bind (get LC name) (fun v => set pc LC refresh name v)) s =
  Normal tt s.
Proof.
  induction names as [|name names IH]; intros s Hacc Hs; [reflexivity|].
  cbn [for_each].
  destruct (Hacc name) as [f Ha]; [left|].
  assert (E : bind (get LC name) (fun v => set pc LC refresh name v) s = Normal tt s).
  { rewrite (bind_normal _ _ _ _ _ (get_property _ _ _ _ Ha)).
    unfold set. rewrite Ha. unfold property_set, bind, gets. rewrite (Hs name). reflexivity. }
  rewrite (bind_normal _ _ _ _ _ E).
  apply IH; [|exact Hs]. intros n Hn. apply Hacc. right. exact Hn.
Qed.

(** Hence [refreshProperties] invokes no on-change function and stores
    nothing when no stored value is a NaN; it ends normally or in the
    TypeError of [onEnable] on an instance without a handle. *)
Lemma refreshProperties_dispatches_nothing s n :
  self_equal s ->
  exists s',
    (refreshProperties pc LC (S n) s = Normal tt s' \/
     refreshProperties pc LC (S n) s = Throw s') /\
    fired s' = fired s /\ data s' = data s.
Proof.
  intros Hs. cbn [refreshProperties].
  rewrite (bind_normal _ _ _ _ _ (refresh_loop_same _ _ s (registered_accessor pc) Hs)).
  rewrite (bind_normal _ _ _ _ _ (get_property _ _ _ _ accessor_enabled)).
  unfold when. destruct (truthy (read (data s) "enabled")); [|exists s; auto].
  unfold bind, gets. destruct (entity_enabled s); [|exists s; auto].
  unfold onEnable, modify, call_light, bind.
  rewrite get_light. cbn [with_framework data].
  destruct (read (data s) "light") as [| | | | |r];
    try (eexists; split; [right; reflexivity | split; reflexivity]);
    unfold ret, light_at; cbn [with_framework heap];
    try (eexists; split; [right; reflexivity | split; reflexivity]).
  destruct (heap s !! r) as [[h| |]|];
    eexists; (split; [first [left; reflexivity | right; reflexivity] | split; reflexivity]).
Qed.

End Alias.

(** ** A change of type *)

Section TypeChange.

Context (pc : Host).
Local Abbreviation LC := (LightComponent pc).

Lemma accessor_type :
prototype LC !! "type" = Some (Property "type" (Some on_type)).
Proof. vm_compute. reflexivity. Qed.

(** On an instance that owns a handle and stores no NaN,
  [refreshProperties] comes down to its last two lines. *)
Lemma refreshProperties_lit s r h n :
self_equal s ->
lit s r h ->
refreshProperties pc LC (S n) s =
Normal tt
  (if truthy (read (data s) "enabled") && entity_enabled s
   then relight r (Light.receive (ToInt32 pc) Light.setEnabled (Light.AVal (VBool true)) h)
          (with_framework (fun l => l ++ [super_onEnable]) s)
   else s).
Proof.
intros Hs Hl. cbn [refreshProperties].
rewrite (bind_normal _ _ _ _ _ (refresh_loop_same pc _ _ s (registered_accessor pc) Hs)).
rewrite (bind_normal _ _ _ _ _ (get_property _ _ _ _ (accessor_enabled pc))).
unfold when. destruct (truthy (read (data s) "enabled")); [|reflexivity].
unfold bind, gets. destruct (entity_enabled s); [|reflexivity].
unfold onEnable, bind, modify. cbn [andb].
apply call_light_lit. exact Hl.
Qed.

(** A change of [type] installs a new handle and replays nothing on it:
  the handle has received no call, or [setEnabled(true)] alone. *)
Lemma type_change_replays_nothing s v n :
self_equal s ->
strict_eq v v = true ->
strict_eq (read (data s) "type") v = false ->
exists s' h',
  assign pc LC (S n) "type" v s = Normal tt s' /\
  the_light s' = Some h' /\
  (Light.calls h' = [] \/
   Light.calls h' = [(Light.setEnabled, Light.AVal (VBool true))]) /\
  fired s' = fired s ++ [{| d_name := "type"; d_value := v;
                            d_oldValue := read (data s) "type" |}].
Proof.
intros Hs Hv He.
rewrite (assign_changed _ _ _ _ _ _ accessor_type He). cbn [call]. rewrite He.
set (s0 := dispatched "type" v (read (data s) "type") (with_data (insert "type" v) s)).
unfold changeType, bind, modify.
match goal with
| |- context [refreshProperties _ _ _ ?x] => set (s1 := x)
end.
set (r := fresh (dom (heap (with_framework
       (fun l => l ++ [system_changeType (read (data s) "type") v]) s0)))) in *.
assert (Hl : exists h0, lit s1 r h0 /\ Light.calls h0 = []).
{ eexists. split; [split|].
  - subst s1. cbn [with_data with_heap data]. apply read_insert.
  - subst s1. cbn [with_data with_heap heap]. apply lookup_insert_eq.
  - reflexivity. }
destruct Hl as (h0 & Hl & Hc).
assert (Hs1 : self_equal s1).
{ intros name. subst s1 s0. cbn [with_data with_heap with_framework dispatched with_fired data].
  destruct (decide (name = "light")) as [->|Hn1].
  - rewrite read_insert. cbn. apply Nat.eqb_refl.
  - rewrite read_insert_ne by congruence.
    destruct (decide (name = "type")) as [->|Hn2].
    + rewrite read_insert. exact Hv.
    + rewrite read_insert_ne by congruence. apply Hs. }
rewrite (refreshProperties_lit _ _ _ _ Hs1 Hl).
destruct (truthy (read (data s1) "enabled") && entity_enabled s1).
- eexists _, _. split; [reflexivity|]. split.
  { apply the_light_lit. exists r. eapply lit_relight.
    destruct Hl as [Hd Hh]. split; [exact Hd | exact Hh]. }
  split; [right; cbn [Light.receive Light.calls]; rewrite Hc; reflexivity | reflexivity].
- exists s1, h0. split; [reflexivity|]. split.
  { apply the_light_lit. exists r. exact Hl. }
  split; [left; exact Hc | reflexivity].
Qed.

End TypeChange.

(** ** The model at work *)

(** A changing write reaches the handle; the same write again does not. *)
Example range_write_reaches_the_handle :
  let c := (assign sample_pc sample_registry 0 "range" (VNum 20) >>
            assign sample_pc sample_registry 0 "range" (VNum 20)) sample in
  (Light.calls <$> (completed c ≫= the_light)) =
    Some [(Light.setAttenuationEnd, Light.AVal (VNum 20))].
Proof. vm_compute. reflexivity. Qed.

(** A NaN is never equal to the stored value, not even to itself. *)
Example nan_write_dispatches_every_time :
  let c := (assign sample_pc sample_registry 0 "range" (VNum nan) >>
            assign sample_pc sample_registry 0 "range" (VNum nan)) sample in
  (length ∘ fired <$> completed c) = Some 2%nat.
Proof. vm_compute. reflexivity. Qed.

(** Without a handle the first member access on [this.light] throws,
    after the value has been stored. *)
Example write_without_handle_throws :
  match assign sample_pc sample_registry 0 "range" (VNum 20)
          (construct sample_pc sample_registry true) with
  | Throw s => read (data s) "range" = VNum 20
  | _ => False
  end.
Proof. vm_compute. reflexivity. Qed.

(** ** The claims on the sample instance *)

Lemma sample_distinct_flags : distinct_flags sample_pc.
Proof. unfold distinct_flags. vm_compute. repeat split. Defined.

Lemma sample_lit : lit sample 1 sample_light.
Proof. split; vm_compute; reflexivity. Defined.

Lemma sample_baked_lit : lit sample_baked 1 sample_baked_light.
Proof. split; vm_compute; reflexivity. Defined.

Lemma range_registered : "range" ∈ _props sample_registry.
Proof. vm_compute. do 10 apply list_elem_of_further. apply list_elem_of_here. Defined.

Lemma color_registered : "color" ∈ _props sample_registry.
Proof. vm_compute. do 3 apply list_elem_of_further. apply list_elem_of_here. Defined.

(** C1. On the sample instance, whose twenty-seven properties hold their
    defaults and which owns a handle, [refreshProperties()] returns
    normally having invoked no on-change function at all: every
    self-assignment is swallowed by the equality test of the setter.  The
    handle receives [setEnabled(true)] from [onEnable] and nothing else. *)
Theorem refreshProperties_invokes_no_handler :
  let c := refreshProperties sample_pc sample_registry 1 sample in
  (fired <$> completed c) = Some [] /\
  (Light.calls <$> (completed c ≫= the_light)) =
    Some [(Light.setEnabled, Light.AVal (VBool true))] /\
  length (_props sample_registry) = 27%nat.
Proof. vm_compute. repeat split. Qed.

(** C5. On the sample instance ([type] "directional", [range] 10), the
    write [type = "point"] runs [changeType] and [refreshProperties] and
    returns normally; [range] is still 10 and a new handle is installed,
    but that handle has received [setEnabled(true)] only:
    [setAttenuationEnd] was never called on it. *)
Theorem type_change_does_not_reapply_range :
  let c := assign sample_pc sample_registry 1 "type" (VStr "point") sample in
  (read (data sample) "type", read (data sample) "range") =
    (VStr "directional", VNum 10) /\
  ((fun s => (read (data s) "type", read (data s) "range", read (data s) "light"))
     <$> completed c) = Some (VStr "point", VNum 10, VObj 2) /\
  (framework <$> completed c) =
    Some [system_changeType (VStr "directional") (VStr "point"); super_onEnable] /\
  (Light.calls <$> (completed c ≫= the_light)) =
    Some [(Light.setEnabled, Light.AVal (VBool true))].
Proof. vm_compute. repeat split. Qed.

(** The same stored flags reached in two orders, with different bits. *)
Lemma write_order_matters :
  exists s1 s2,
    write_flags sample_pc 0 [(bake, true); (affectLightmapped, true)] sample = Normal tt s1 /\
    write_flags sample_pc 0 [(affectLightmapped, true); (bake, true)] sample = Normal tt s2 /\
    flags s1 = flags s2 /\
    (mask_bits sample_pc ∘ Light.mask <$> the_light s1) = Some (true, true, false) /\
    (mask_bits sample_pc ∘ Light.mask <$> the_light s2) = Some (true, false, true).
Proof.
  eexists _, _. split; [vm_compute; reflexivity|]. split; [vm_compute; reflexivity|].
  vm_compute. repeat split.
Qed.

(** C2, as stated, fails on the sample instance: no function of the stored
    flags gives the DYNAMIC, BAKED and LIGHTMAP bits after every sequence
    of writes; and a write to [mask] changes the bits while the flags
    stay as they are. *)
Lemma mask_bits_not_a_function_of_the_flags :
  ~ (exists F : Value * Value * Value -> bool * bool * bool,
       forall ws s',
         write_flags sample_pc 0 ws sample = Normal tt s' ->
         (mask_bits sample_pc ∘ Light.mask <$> the_light s') = Some (F (flags s'))) /\
  (let s3 := completed (assign sample_pc sample_registry 0 "mask" (VNum 6) sample) in
   (flags <$> s3) = Some (flags sample) /\
   (mask_bits sample_pc ∘ Light.mask <$> the_light sample) = Some (true, false, false) /\
   (mask_bits sample_pc ∘ Light.mask <$> (s3 ≫= the_light)) = Some (false, true, true)).
Proof.
  split.
  - intros [F H].
    destruct write_order_matters as (s1 & s2 & E1 & E2 & Ef & B1 & B2).
    pose proof (H _ _ E1) as H1. pose proof (H _ _ E2) as H2.
    rewrite B1 in H1. rewrite B2, <- Ef in H2. congruence.
  - vm_compute. repeat split.
Qed.

Lemma flag_writes_witness :
  distinct_flags sample_pc /\ resolved sample_pc sample = true /\
  exists s',
    write_flags sample_pc 0 [(bake, true); (affectLightmapped, true); (affectDynamic, false)]
      sample = Normal tt s' /\
    resolved sample_pc s' = true.
Proof.
  split; [exact sample_distinct_flags|]. split; [vm_compute; reflexivity|].
  apply (proj1 (flag_writes_keep_mask_resolved sample_pc sample sample_distinct_flags
                  ltac:(vm_compute; reflexivity))).
Defined.

Lemma affectLightmapped_write_witness :
  (exists s' h',
     assign sample_pc sample_registry 0 "affectLightmapped" (VBool false) sample_baked =
       Normal tt s' /\
     lit s' 1 h' /\
     has_bits (Light.mask h') (MASK_BAKED sample_pc) = false /\
     has_bits (Light.mask h') (MASK_LIGHTMAP sample_pc) = true) /\
  (forall v, exists s' h',
     assign sample_pc sample_registry 0 "affectLightmapped" v sample = Normal tt s' /\
     lit s' 1 h' /\
     has_bits (Light.mask h') (MASK_LIGHTMAP sample_pc) =
       has_bits (Light.mask sample_light) (MASK_LIGHTMAP sample_pc) /\
     (forall i, 0 <= i < 32 -> Z.testbit (MASK_BAKED sample_pc) i = false ->
        Z.testbit (Light.mask h') i = Z.testbit (Light.mask sample_light) i)).
Proof.
  split.
  - apply (proj1 (affectLightmapped_write_resolution sample_pc sample_baked 1
                    sample_baked_light 0 sample_distinct_flags sample_baked_lit));
      vm_compute; reflexivity.
  - apply (proj2 (affectLightmapped_write_resolution sample_pc sample 1
                    sample_light 0 sample_distinct_flags sample_lit));
      vm_compute; reflexivity.
Defined.

Lemma affectDynamic_write_witness :
  exists s' h',
    assign sample_pc sample_registry 0 "affectDynamic" (VBool false) sample_baked =
      Normal tt s' /\
    lit s' 1 h' /\
    has_bits (Light.mask h') (MASK_BAKED sample_pc) =
      has_bits (Light.mask sample_baked_light) (MASK_BAKED sample_pc) /\
    has_bits (Light.mask h') (MASK_LIGHTMAP sample_pc) =
      has_bits (Light.mask sample_baked_light) (MASK_LIGHTMAP sample_pc) /\
    (forall i, 0 <= i < 32 -> Z.testbit (MASK_DYNAMIC sample_pc) i = false ->
       Z.testbit (Light.mask h') i = Z.testbit (Light.mask sample_baked_light) i).
Proof.
  exact (affectDynamic_write_touches_only_dynamic sample_pc sample_baked 1
           sample_baked_light (VBool false) 0 sample_distinct_flags sample_baked_lit).
Defined.

Lemma shadowBias_write_witness :
  exists s' h',
    assign sample_pc sample_registry 0 "shadowBias" (VNum 5) sample = Normal tt s' /\
    lit s' 1 h' /\
    Light.calls h' =
      Light.calls sample_light ++
      [(Light.setShadowBias, Light.AVal (VNum (PrimFloat.opp 0.01 * 5)))] /\
    get sample_registry "shadowBias" s' = Normal (VNum 5) s' /\
    (PrimFloat.is_nan 5 = false -> (PrimFloat.opp 0.01 * 5)%float <> 5%float).
Proof.
  apply (shadowBias_write_scales_the_bias sample_pc sample 1 sample_light 5 0 sample_lit).
  vm_compute. reflexivity.
Defined.

Lemma equal_write_witness :
  (forall v s fuel,
     strict_eq (read (data s) "color") v = true ->
     assign sample_pc sample_registry fuel "color" v s = Normal tt s) /\
  (Light.calls <$>
     (completed (assign sample_pc sample_registry 0 "color" (VObj 7) sample_two_whites)
        ≫= the_light)) =
    Some [(Light.setColor, Light.AVal (VObj 7))].
Proof.
  pose proof (equal_write_is_noop sample_pc "color" color_registered) as [Hsame _].
  split; [exact Hsame | vm_compute; reflexivity].
Defined.

Lemma enable_alias_witness :
  exists s' h',
    assign sample_pc sample_registry 0 "enabled" (VBool false) sample = Normal tt s' /\
    assign sample_pc sample_registry 0 "enable" (VBool false) sample =
      Normal tt (warned enable_set_warning s') /\
    read (data s') "enabled" = VBool false /\
    lit s' 1 h' /\ Light.enabled h' = false /\
    console s' = console sample.
Proof.
  apply (proj1 (proj2 (enable_is_a_warning_alias sample_pc)) sample 1%nat sample_light 0%nat
           sample_lit); vm_compute; reflexivity.
Defined.

Lemma registering_twice_witness :
  "range" ∈ _props sample_registry /\
  _defineProperty "range" (VNum 5) None sample_registry =
  Normal tt {| _props := _props sample_registry ++ ["range"];
               _propsDefault := _propsDefault sample_registry ++ [VNum 5];
               prototype := <["range" := Property "range" None]> (prototype sample_registry) |}.
Proof.
  split; [exact range_registered|].
  exact (registering_twice_appends_and_overwrites sample_pc "range" (VNum 5) None range_registered).
Defined.

(** C8, as stated, fails: registering "range" a second time returns
    normally, leaves the name twice in [_props], and replaces the accessor
    (the new one has no on-change function). *)
Lemma duplicate_registration_is_accepted :
  let c := _defineProperty "range" (VNum 5) None sample_registry in
  ((fun R => (count_occ String.string_dec (_props R) "range", length (_props R),
              prototype R !! "range")) <$> completed c) =
    Some (2%nat, 28%nat, Some (Property "range" None)) /\
  prototype sample_registry !! "range" =
    Some (Property "range" (Some (forward Light.setAttenuationEnd))).
Proof. vm_compute. repeat split. Qed.

Lemma fresh_instance_witness :
  _props sample_registry !! 10%nat = Some "range" /\
  _propsDefault sample_registry !! 10%nat = Some (VNum 10) /\
  get sample_registry "range" (construct sample_pc sample_registry true) =
    Normal (VNum 10) (construct sample_pc sample_registry true) /\
  fired (construct sample_pc sample_registry true) = [].
Proof.
  assert (HP : _props sample_registry !! 10%nat = Some "range") by (vm_compute; reflexivity).
  assert (HD : _propsDefault sample_registry !! 10%nat = Some (VNum 10)) by (vm_compute; reflexivity).
  split; [exact HP|]. split; [exact HD|].
  exact (fresh_instance_has_defaults sample_pc true 10 "range" (VNum 10) HP HD).
Defined.

(** * Further properties of the code *)

(** ** What never changes the stored values *)

Section Store.

Context (pc : Host) (R : Registry).

Lemma same_store_refl s : same_store s s.
Proof. intros k _. reflexivity. Qed.

Lemma same_store_trans s1 s2 s3 :
  same_store s1 s2 -> same_store s2 s3 -> same_store s1 s3.
Proof. intros H1 H2 k Hk. rewrite (H2 k Hk). apply H1, Hk. Qed.

Lemma same_store_data s s' : data s' = data s -> same_store s s'.
Proof. intros E k _. rewrite E. reflexivity. Qed.

Lemma ends_in_bind {A B} (m : M Component A) (k : A -> M Component B) :
  ends_in same_store m -> (forall a, ends_in same_store (k a)) ->
  ends_in same_store (bind m k).
Proof.
  intros Hm Hk s. unfold bind. pose proof (Hm s) as H1.
  destruct (m s) as [a s1|s1|]; [|exact H1|exact I].
  pose proof (Hk a s1) as H2.
  destruct (k a s1) as [b s2|s2|]; [| |exact I];
    exact (same_store_trans _ _ _ H1 H2).
Qed.

Lemma ends_in_ret {A} (a : A) : ends_in same_store (ret a).
Proof. intros s. apply same_store_refl. Qed.

Lemma ends_in_throw {A} : ends_in same_store (@throw Component A).
Proof. intros s. apply same_store_refl. Qed.

Lemma ends_in_diverge {A} : ends_in same_store (@diverge Component A).
Proof. intros s. exact I. Qed.

Lemma ends_in_gets {A} (f : Component -> A) : ends_in same_store (gets f).
Proof. intros s. apply same_store_refl. Qed.

Lemma ends_in_modify (f : Component -> Component) :
  (forall s, data (f s) = data s) -> ends_in same_store (modify f).
Proof. intros H s. apply same_store_data, H. Qed.

Lemma ends_in_when c (m : M Component unit) :
  ends_in same_store m -> ends_in same_store (when c m).
Proof. intros H. destruct c; [exact H | apply ends_in_ret]. Qed.

Lemma ends_in_for_each {A} (l : list A) (body : A -> M Component unit) :
  (forall x, ends_in same_store (body x)) -> ends_in same_store (for_each l body).
Proof.
  intros H. induction l as [|x l IH]; [apply ends_in_ret|].
  cbn [for_each]. apply ends_in_bind; [apply H | intros _; exact IH].
Qed.

Lemma ends_in_get key : ends_in same_store (get R key).
Proof.
  unfold get. destruct (prototype R !! key) as [[name f|]|].
  - apply ends_in_gets.
  - apply ends_in_bind; [apply ends_in_modify; reflexivity|]. intros _.
    unfold get_enabled. destruct (prototype R !! "enabled") as [[name f|]|].
    + apply ends_in_gets.
    + apply ends_in_diverge.
    + apply ends_in_gets.
  - apply ends_in_gets.
Qed.

Lemma ends_in_call_light m arg :
  ends_in same_store arg -> ends_in same_store (call_light pc R m arg).
Proof.
  intros Ha. unfold call_light. apply ends_in_bind; [apply ends_in_get|].
  intros l. assert (Hk : ends_in same_store
    (bind arg (fun a s => match light_at s l with
                          | Some (r, h) =>
                              Normal tt (with_heap (insert r (OLight (Light.receive (ToInt32 pc) m a h))) s)
                          | None => Throw s
                          end))).
  { apply ends_in_bind; [exact Ha|]. intros a s.
    destruct (light_at s l) as [[r h]|];
      [apply same_store_data; reflexivity | apply same_store_refl]. }
  destruct l; first [apply ends_in_throw | exact Hk].
Qed.

Lemma ends_in_light_mask : ends_in same_store (light_mask R).
Proof.
  unfold light_mask. apply ends_in_bind; [apply ends_in_get|].
  intros l. destruct l; first [apply ends_in_throw | apply ends_in_gets].
Qed.

Lemma ends_in_update_light_mask f : ends_in same_store (update_light_mask R f).
Proof.
  unfold update_light_mask. apply ends_in_bind; [apply ends_in_get|].
  intros l.
  assert (Hk : ends_in same_store
    (modify (fun s => match light_at s l with
                      | Some (r, h) =>
                          with_heap (insert r (OLight (Light.set_mask (f (Light.mask h)) h))) s
                      | None => s
                      end))).
  { apply ends_in_modify. intros s. destruct (light_at s l) as [[r h]|]; reflexivity. }
  destruct l; first [apply ends_in_throw | exact Hk].
Qed.

Lemma ends_in_assign_shadowUpdateMode v :
  ends_in same_store (assign_shadowUpdateMode R v).
Proof.
  unfold assign_shadowUpdateMode. apply ends_in_bind; [apply ends_in_get|].
  intros l.
  assert (Hk : ends_in same_store
    (modify (fun s => match light_at s l with
                      | Some (r, h) =>
                          with_heap (insert r (OLight (Light.set_shadowUpdateMode v h))) s
                      | None => s
                      end))).
  { apply ends_in_modify. intros s. destruct (light_at s l) as [[r h]|]; reflexivity. }
  destruct l; first [apply ends_in_throw | exact Hk].
Qed.

Lemma ends_in_push_mask : ends_in same_store (push_mask pc R).
Proof. apply ends_in_call_light, ends_in_light_mask. Qed.

Lemma ends_in_onEnable : ends_in same_store (onEnable pc R).
Proof.
  unfold onEnable. apply ends_in_bind; [apply ends_in_modify; reflexivity|].
  intros _. apply ends_in_call_light, ends_in_ret.
Qed.

Lemma ends_in_onDisable : ends_in same_store (onDisable pc R).
Proof.
  unfold onDisable. apply ends_in_bind; [apply ends_in_modify; reflexivity|].
  intros _. apply ends_in_call_light, ends_in_ret.
Qed.

Lemma ends_in_changeType old new : ends_in same_store (changeType pc old new).
Proof.
  unfold changeType. apply ends_in_bind; [apply ends_in_modify; reflexivity|].
  intros _ s k Hk. cbn [modify with_data with_heap data].
  apply read_insert_ne. congruence.
Qed.

Lemma ends_in_flag_handler (first : bool) c1 c2 key :
  ends_in same_store
    ((if first
      then bind (mask_set R c1) (fun _ =>
             bind (get R key) (fun x => when (truthy x) (mask_clear R c2)))
      else bind (mask_clear R c1) (fun _ =>
             bind (get R key) (fun x => when (truthy x) (mask_set R c2)))) >>
     push_mask pc R)%js.
Proof.
  apply ends_in_bind; [|intros _; apply ends_in_push_mask].
  destruct first; (apply ends_in_bind; [apply ends_in_update_light_mask|]);
    intros _; (apply ends_in_bind; [apply ends_in_get|]);
    intros x; apply ends_in_when, ends_in_update_light_mask.
Qed.

Lemma ends_in_call refresh f newValue oldValue :
  ends_in same_store refresh ->
  ends_in same_store (call pc R refresh f newValue oldValue).
Proof.
  intros Hr. destruct f; cbn [call].
  - unfold onSetEnabled. apply ends_in_bind; [apply ends_in_gets|].
    intros e. apply ends_in_when.
    destruct (truthy newValue); [apply ends_in_onEnable | apply ends_in_onDisable].
  - destruct (strict_eq oldValue newValue); [apply ends_in_ret|].
    apply ends_in_bind; [apply ends_in_changeType | intros _; exact Hr].
  - apply ends_in_call_light, ends_in_ret.
  - apply ends_in_call_light, ends_in_ret.
  - apply ends_in_assign_shadowUpdateMode.
  - unfold affectDynamic_changed.
    apply ends_in_bind; [|intros _; apply ends_in_push_mask].
    destruct (truthy newValue); apply ends_in_update_light_mask.
  - apply (ends_in_flag_handler (truthy newValue)).
  - apply (ends_in_flag_handler (truthy newValue)).
Qed.

(** Storing back the value that was read keeps the store. *)
Lemma property_set_back refresh name f s :
  ends_in same_store refresh ->
  match property_set pc R refresh name f (read (data s) name) s with
  | Normal _ s' => same_store s s'
  | Throw s' => same_store s s'
  | Exhausted => True
  end.
Proof.
  intros Hr. unfold property_set, bind, gets.
  destruct (strict_eq (read (data s) name) (read (data s) name)); [apply same_store_refl|].
  unfold modify.
  assert (H0 : same_store s (with_data (insert name (read (data s) name)) s)).
  { intros k _. cbn [with_data data]. unfold read.
    destruct (decide (name = k)) as [->|Hne].
    - rewrite lookup_insert_eq. reflexivity.
    - rewrite lookup_insert_ne by exact Hne. reflexivity. }
  destruct f as [f|]; [|exact H0].
  match goal with
  | |- match call _ _ _ _ _ _ ?s1 with _ => _ end =>
      pose proof (ends_in_call refresh f (read (data s) name) (read (data s) name) Hr s1) as H1;
      destruct (call pc R refresh f (read (data s) name) (read (data s) name) s1)
        as [a s2|s2|]; [| |exact I];
      (eapply same_store_trans; [exact H0|]);
      intros k Hk; rewrite (H1 k Hk); reflexivity
  end.
Qed.

Lemma ends_in_self_assignment refresh key :
  ends_in same_store refresh ->
  ends_in same_store (bind (get R key) (fun v => set pc R refresh key v)).
Proof.
  intros Hr s. unfold bind, get, set.
  destruct (prototype R !! key) as [[name f|]|].
  - unfold property_get, gets. apply property_set_back, Hr.
  - unfold console_warn, modify, get_enabled, set_enabled.
    destruct (prototype R !! "enabled") as [[name f|]|].
    + unfold property_get, gets, bind. cbn [with_console data].
      match goal with
      | |- match property_set _ _ _ _ _ _ ?s1 with _ => _ end =>
          pose proof (property_set_back refresh name f s1 Hr) as H1;
          change (read (data s1) name) with (read (data s) name) in H1;
          destruct (property_set pc R refresh name f (read (data s) name) s1)
            as [a s2|s2|]; [| |exact I];
          intros k Hk; rewrite (H1 k Hk); reflexivity
      end.
    + exact I.
    + unfold gets, bind. apply same_store_data. reflexivity.
  - unfold gets, modify. apply same_store_data. reflexivity.
Qed.

Lemma ends_in_refreshProperties fuel :
  ends_in same_store (refreshProperties pc R fuel).
Proof.
  induction fuel as [|n IH]; [apply ends_in_diverge|].
  cbn [refreshProperties].
  apply ends_in_bind.
  - apply ends_in_for_each. intros name. apply ends_in_self_assignment, IH.
  - intros _. apply ends_in_bind; [apply ends_in_get|].
    intros e. apply ends_in_when, ends_in_bind; [apply ends_in_gets|].
    intros ee. apply ends_in_when, ends_in_onEnable.
Qed.

(** X1. However [refreshProperties] ends, normally or in a TypeError, and
    whatever the registry and the stored values (NaN included), every
    stored property other than [light] reads afterwards as it did
    before. *)
Theorem refreshProperties_keeps_stored_values fuel s :
  match refreshProperties pc R fuel s with
  | Normal _ s' => same_store s s'
  | Throw s' => same_store s s'
  | Exhausted => True
  end.
Proof. apply ends_in_refreshProperties. Qed.

End Store.

(** ** One write, seen from the store *)

Section OneWrite.

Context (pc : Host).
Local Abbreviation LC := (LightComponent pc).

(** X2. A write to a registered property, however it ends, either found
    a value [===] to the one written and left the state alone, or left the
    written value in the store; no other stored property except [light]
    reads differently afterwards. *)
Theorem write_then_read name v s fuel :
  name ∈ _props LC ->
  match assign pc LC fuel name v s with
  | Normal _ s' | Throw s' =>
      (if strict_eq (read (data s) name) v
       then s' = s
       else read (data s') name = v) /\
      (forall k, k <> name -> k <> "light" -> read (data s') k = read (data s) k)
  | Exhausted => True
  end.
Proof.
  intros Hr. destruct (registered_accessor pc _ Hr) as [f Ha].
  unfold assign, set. rewrite Ha. unfold property_set, bind, gets.
  destruct (strict_eq (read (data s) name) v) eqn:He; [split; reflexivity|].
  unfold modify. destruct f as [f|].
  - assert (Hn : name <> "light").
    { intros ->. rewrite accessor_light in Ha. discriminate. }
    match goal with
    | |- match call _ _ ?rf _ _ _ ?s1 with _ => _ end =>
        pose proof (ends_in_call pc LC rf f v (read (data s) name)
                      (ends_in_refreshProperties pc LC fuel) s1) as H1;
        destruct (call pc LC rf f v (read (data s) name) s1) as [a s2|s2|]; [| |exact I]
    end.
    all: split;
      [ rewrite (H1 name Hn); cbn [with_fired with_data data]; apply read_insert
      | intros k Hk Hl; rewrite (H1 k Hl); cbn [with_fired with_data data];
        apply read_insert_ne; congruence ].
  - split; [cbn [with_data data]; apply read_insert|].
    intros k Hk _. cbn [with_data data]. apply read_insert_ne. congruence.
Qed.

(** X3. On an instance whose [light] is [null] or [undefined], a changing
    write to any property whose on-change function starts on
    [this.light] ends in a TypeError, and the new value has been stored
    and the dispatch recorded all the same: nothing is rolled back. *)
Theorem write_without_handle_is_not_rolled_back name f v s fuel :
  prototype LC !! name = Some (Property name (Some f)) ->
  starts_on_light f = true ->
  read (data s) "light" = VNull \/ read (data s) "light" = VUndefined ->
  strict_eq (read (data s) name) v = false ->
  assign pc LC fuel name v s =
  Throw (dispatched name v (read (data s) name) (with_data (insert name v) s)).
Proof.
  intros Ha Hf Hl He.
  assert (Hn : name <> "light").
  { intros ->. rewrite accessor_light in Ha. discriminate. }
  rewrite (assign_changed _ _ _ _ _ _ Ha He).
  set (s0 := dispatched name v (read (data s) name) (with_data (insert name v) s)).
  assert (Hg : exists l, get LC "light" s0 = Normal l s0 /\ (l = VNull \/ l = VUndefined)).
  { exists (read (data s0) "light"). split; [apply get_light|].
    subst s0. cbn [dispatched with_fired with_data data].
    rewrite read_insert_ne by exact Hn. exact Hl. }
  destruct Hg as (l & Hg & Hnull).
  assert (Hc : forall m arg, call_light pc LC m arg s0 = Throw s0).
  { intros m arg. unfold call_light. rewrite (bind_normal _ _ _ _ _ Hg).
    destruct Hnull as [-> | ->]; reflexivity. }
  assert (Hu : forall g, update_light_mask LC g s0 = Throw s0).
  { intros g. unfold update_light_mask. rewrite (bind_normal _ _ _ _ _ Hg).
    destruct Hnull as [-> | ->]; reflexivity. }
  destruct f; try discriminate Hf; cbn [call].
  - apply Hc.
  - apply Hc.
  - unfold assign_shadowUpdateMode. rewrite (bind_normal _ _ _ _ _ Hg).
    destruct Hnull as [-> | ->]; reflexivity.
  - unfold affectDynamic_changed, mask_set, mask_clear, bind.
    destruct (truthy v); rewrite Hu; reflexivity.
  - unfold affectLightmapped_changed, mask_set, mask_clear, bind.
    destruct (truthy v); rewrite Hu; reflexivity.
  - unfold bake_changed, mask_set, mask_clear, bind.
    destruct (truthy v); rewrite Hu; reflexivity.
Qed.

(** X13. On an instance that stores no NaN, all of [refreshProperties]
    is its last two lines: [onEnable] runs exactly when [enabled] is
    truthy and the entity is enabled, and otherwise the state is left as
    it was. *)
Theorem refreshProperties_is_its_enable_check s n :
  self_equal s ->
  refreshProperties pc LC (S n) s =
  if truthy (read (data s) "enabled") && entity_enabled s
  then onEnable pc LC s
  else Normal tt s.
Proof.
  intros Hs. cbn [refreshProperties].
  rewrite (bind_normal _ _ _ _ _ (refresh_loop_same pc _ _ s (registered_accessor pc) Hs)).
  rewrite (bind_normal _ _ _ _ _ (get_property _ _ _ _ (accessor_enabled pc))).
  unfold when. destruct (truthy (read (data s) "enabled")); [|reflexivity].
  unfold bind, gets. destruct (entity_enabled s); reflexivity.
Qed.

End OneWrite.

(** ** A NaN as the type *)

Section NaNType.

Context (pc : Host).
Local Abbreviation LC := (LightComponent pc).

(** The self-assignment of [enabled] in the loop of [refreshProperties]
    returns normally on an instance that owns a handle, keeps the handle
    owned and keeps the stored [type]. *)
Lemma enabled_self_assignment refresh s r h :
  lit s r h ->
  exists s1 h1,
    bind (get LC "enabled") (fun v => set pc LC refresh "enabled" v) s = Normal tt s1 /\
    lit s1 r h1 /\ read (data s1) "type" = read (data s) "type".
Proof.
  intros Hl.
  rewrite (bind_normal _ _ _ _ _ (get_property _ _ _ _ (accessor_enabled pc))).
  unfold set. rewrite accessor_enabled. unfold property_set, bind, gets.
  destruct (strict_eq (read (data s) "enabled") (read (data s) "enabled")).
  { exists s, h. repeat split; [exact (proj1 Hl) | exact (proj2 Hl)]. }
  unfold modify. cbn [call]. unfold onSetEnabled, bind, gets, when.
  set (s0 := with_fired _ (with_data _ s)).
  assert (Hl0 : lit s0 r h).
  { destruct Hl as [Hd Hh]. split; [|exact Hh].
    subst s0. cbn [with_fired with_data data]. rewrite read_insert_ne by discriminate. exact Hd. }
  assert (Ht0 : read (data s0) "type" = read (data s) "type").
  { subst s0. cbn [with_fired with_data data]. apply read_insert_ne. discriminate. }
  destruct (entity_enabled s0).
  - destruct (truthy (read (data s) "enabled")); unfold onEnable, onDisable, bind, modify;
      (erewrite call_light_lit;
       [ eexists _, _; split; [reflexivity|]; split;
         [ eapply lit_relight; destruct Hl0 as [Hd Hh]; split; [exact Hd | exact Hh]
         | exact Ht0 ]
       | destruct Hl0 as [Hd Hh]; split; [exact Hd | exact Hh] ]).
  - exists s0, h. unfold ret. repeat split; [exact (proj1 Hl0) | exact (proj2 Hl0) | exact Ht0].
Qed.

Lemma light_self_assignment refresh s r h :
  lit s r h ->
  bind (get LC "light") (fun v => set pc LC refresh "light" v) s = Normal tt s.
Proof.
  intros [Hd Hh].
  rewrite (bind_normal _ _ _ _ _ (get_light pc s)).
  unfold set. rewrite accessor_light. unfold property_set, bind, gets.
  rewrite Hd. cbn [strict_eq]. rewrite Nat.eqb_refl. reflexivity.
Qed.

Lemma changeType_lit old new s :
  exists s' r h,
    changeType pc old new s = Normal tt s' /\ lit s' r h /\
    forall k, k <> "light" -> read (data s') k = read (data s) k.
Proof.
  unfold changeType, bind, modify. eexists _, _, _. split; [reflexivity|]. split; [split|].
  - cbn [with_data with_heap data]. apply read_insert.
  - cbn [with_data with_heap heap]. apply lookup_insert_eq.
  - intros k Hk. cbn [with_data with_heap with_framework data].
    apply read_insert_ne. congruence.
Qed.

(** With a NaN stored as the type, [refreshProperties] re-enters the
    handler of [type] at every level of nesting. *)
Lemma refreshProperties_nan_type fuel : forall s r h,
  lit s r h ->
  read (data s) "type" = VNum nan ->
  refreshProperties pc LC fuel s = Exhausted.
Proof.
  induction fuel as [|n IH]; intros s r h Hl Ht; [reflexivity|].
  cbn [refreshProperties]. rewrite props_of_LightComponent. cbn [for_each].
  destruct (enabled_self_assignment (refreshProperties pc LC n) s r h Hl)
    as (s1 & h1 & E1 & Hl1 & Ht1).
  unfold bind at 1. unfold bind at 1. rewrite E1.
  unfold bind at 1. rewrite (light_self_assignment _ s1 r h1 Hl1).
  assert (E3 : bind (get LC "type") (fun v => set pc LC (refreshProperties pc LC n) "type" v) s1
               = Exhausted).
  { rewrite (bind_normal _ _ _ _ _ (get_property _ _ _ _ (accessor_type pc))).
    rewrite Ht1, Ht. unfold set. rewrite accessor_type. unfold property_set, bind, gets.
    rewrite Ht1, Ht. cbn [strict_eq].
    change (PrimFloat.eqb nan nan) with false. cbv iota. unfold modify. cbn [call strict_eq].
    change (PrimFloat.eqb nan nan) with false. cbv iota.
    match goal with
    | |- bind (changeType _ ?o ?v) _ ?s0 = _ =>
        destruct (changeType_lit o v s0) as (s2 & r2 & h2 & E2 & Hl2 & Hk2);
        rewrite (bind_normal _ _ _ _ _ E2)
    end.
    apply (IH s2 r2 h2 Hl2). rewrite Hk2 by discriminate.
    cbn [with_fired with_data data]. apply read_insert. }
  unfold bind at 1. rewrite E3. reflexivity.
Qed.

(** X4. Writing a NaN to [type] never returns, whatever the state and
    however deep the nesting allowed: after [changeType] the handler calls
    [refreshProperties], whose self-assignment of [type] finds the stored
    NaN different from itself and runs the handler again. *)
Theorem nan_type_write_never_returns fuel s :
  assign pc LC fuel "type" (VNum nan) s = Exhausted.
Proof.
  assert (He : strict_eq (read (data s) "type") (VNum nan) = false).
  { destruct (read (data s) "type") as [| | |x| |]; try reflexivity.
    cbn [strict_eq]. rewrite FloatAxioms.eqb_spec.
    change (Prim2SF nan) with S754_nan.
    destruct (Prim2SF x) as [[]|[]| |[] ? ?]; reflexivity. }
  rewrite (assign_changed _ _ _ _ _ _ (accessor_type pc) He). cbn [call]. rewrite He.
  match goal with
  | |- bind (changeType _ ?o ?v) _ ?s0 = _ =>
      destruct (changeType_lit o v s0) as (s2 & r2 & h2 & E2 & Hl2 & Hk2);
      rewrite (bind_normal _ _ _ _ _ E2)
  end.
  apply (refreshProperties_nan_type fuel s2 r2 h2 Hl2). rewrite Hk2 by discriminate.
  cbn [dispatched with_fired with_data data]. apply read_insert.
Qed.

End NaNType.

(** ** The mask beyond the three flags *)

Section ForeignBits.

Context (pc : Host).
Local Abbreviation LC := (LightComponent pc).

Lemma int32_range z : - 2 ^ 31 <= int32 z < 2 ^ 31.
Proof.
  unfold int32. pose proof (Z.mod_pos_bound (z + 2 ^ 31) (2 ^ 32) ltac:(lia)). lia.
Qed.

Lemma int32_idem z : int32 (int32 z) = int32 z.
Proof.
  pose proof (int32_range z) as H. unfold int32 at 1.
  rewrite Z.mod_small by lia. lia.
Qed.

Lemma dynamic_mask_int32 v m : int32 (dynamic_mask pc v m) = dynamic_mask pc v m.
Proof. unfold dynamic_mask, bit_or, bit_and. destruct v; apply int32_idem. Qed.

Lemma lightmapped_mask_int32 v bk m :
  int32 (lightmapped_mask pc v bk m) = lightmapped_mask pc v bk m.
Proof. unfold lightmapped_mask, bit_or, bit_and. destruct v, bk; apply int32_idem. Qed.

Lemma bake_mask_int32 v aL m : int32 (bake_mask pc v aL m) = bake_mask pc v aL m.
Proof. unfold bake_mask, bit_or, bit_and. destruct v, aL; apply int32_idem. Qed.

Lemma dynamic_mask_foreign v m i :
  foreign_bit pc i -> Z.testbit (dynamic_mask pc v m) i = Z.testbit m i.
Proof. intros (Hi & HD & _ & _). apply dynamic_mask_outside; assumption. Qed.

Lemma lightmapped_mask_foreign v bk m i :
  foreign_bit pc i -> Z.testbit (lightmapped_mask pc v bk m) i = Z.testbit m i.
Proof.
  intros (Hi & _ & HB & HL). unfold lightmapped_mask.
  destruct v, bk;
    rewrite ?testbit_bit_clear, ?testbit_bit_or, ?testbit_bit_clear, ?testbit_bit_or by exact Hi;
    rewrite ?HB, ?HL; cbn [negb]; rewrite ?orb_false_r, ?andb_true_r; reflexivity.
Qed.

Lemma bake_mask_foreign v aL m i :
  foreign_bit pc i -> Z.testbit (bake_mask pc v aL m) i = Z.testbit m i.
Proof.
  intros (Hi & _ & HB & HL). unfold bake_mask.
  destruct v, aL;
    rewrite ?testbit_bit_clear, ?testbit_bit_or, ?testbit_bit_clear, ?testbit_bit_or by exact Hi;
    rewrite ?HB, ?HL; cbn [negb]; rewrite ?orb_false_r, ?andb_true_r; reflexivity.
Qed.

(** One write to a flag, of any value, on an instance that owns a handle. *)
Lemma flag_write_keeps_foreign_bits s r h f v fuel :
  lit s r h ->
  exists s' h',
    assign pc LC fuel (flag_name f) v s = Normal tt s' /\
    lit s' r h' /\
    forall i, foreign_bit pc i -> Z.testbit (Light.mask h') i = Z.testbit (Light.mask h) i.
Proof.
  intros Hl. destruct f; cbn [flag_name].
  - destruct (strict_eq (read (data s) "affectDynamic") v) eqn:He.
    + exists s, h. rewrite (assign_same _ _ _ _ _ _ (accessor_affectDynamic pc) He).
      split; [reflexivity|]. split; [exact Hl | reflexivity].
    + eexists _, _. rewrite (assign_affectDynamic _ _ _ _ _ _ Hl He).
      split; [reflexivity|]. split.
      { eapply lit_relight, lit_written; [discriminate | exact Hl]. }
      intros i Hi. cbn [masked Light.mask]. rewrite testbit_int32 by exact (proj1 Hi).
      apply dynamic_mask_foreign, Hi.
  - destruct (strict_eq (read (data s) "affectLightmapped") v) eqn:He.
    + exists s, h. rewrite (assign_same _ _ _ _ _ _ (accessor_affectLightmapped pc) He).
      split; [reflexivity|]. split; [exact Hl | reflexivity].
    + eexists _, _. rewrite (assign_affectLightmapped _ _ _ _ _ _ Hl He).
      split; [reflexivity|]. split.
      { eapply lit_relight, lit_written; [discriminate | exact Hl]. }
      intros i Hi. cbn [masked Light.mask]. rewrite testbit_int32 by exact (proj1 Hi).
      apply lightmapped_mask_foreign, Hi.
  - destruct (strict_eq (read (data s) "bake") v) eqn:He.
    + exists s, h. rewrite (assign_same _ _ _ _ _ _ (accessor_bake pc) He).
      split; [reflexivity|]. split; [exact Hl | reflexivity].
    + eexists _, _. rewrite (assign_bake _ _ _ _ _ _ Hl He).
      split; [reflexivity|]. split.
      { eapply lit_relight, lit_written; [discriminate | exact Hl]. }
      intros i Hi. cbn [masked Light.mask]. rewrite testbit_int32 by exact (proj1 Hi).
      apply bake_mask_foreign, Hi.
Qed.

(** X5. On an instance that owns a handle, any sequence of writes to
    [affectDynamic], [affectLightmapped] and [bake] returns normally, the
    instance still owns the same handle object, and every bit of its mask
    that belongs to none of the three flag constants keeps its value. *)
Theorem flag_writes_keep_foreign_bits ws : forall s r h fuel,
  lit s r h ->
  exists s' h',
    write_flags pc fuel ws s = Normal tt s' /\
    lit s' r h' /\
    forall i, foreign_bit pc i -> Z.testbit (Light.mask h') i = Z.testbit (Light.mask h) i.
Proof.
  induction ws as [|[f v] ws IH]; intros s r h fuel Hl.
  - exists s, h. split; [reflexivity|]. split; [exact Hl | reflexivity].
  - destruct (flag_write_keeps_foreign_bits s r h f (VBool v) fuel Hl) as (s1 & h1 & E1 & Hl1 & B1).
    destruct (IH s1 r h1 fuel Hl1) as (s2 & h2 & E2 & Hl2 & B2).
    exists s2, h2. split; [|split; [exact Hl2|]].
    + unfold write_flags in *. cbn [for_each fst snd].
      rewrite (bind_normal _ _ _ _ _ E1). exact E2.
    + intros i Hi. rewrite (B2 i Hi). apply B1, Hi.
Qed.

(** X6. A changing write to one of the three flags leaves on the handle a
    mask that is a signed 32-bit integer, and that mask is the very
    argument of the one [setMask] call the handle receives. *)
Theorem flag_write_leaves_an_int32_mask s r h f v fuel :
  lit s r h ->
  strict_eq (read (data s) (flag_name f)) v = false ->
  exists s' h',
    assign pc LC fuel (flag_name f) v s = Normal tt s' /\
    lit s' r h' /\
    - 2 ^ 31 <= Light.mask h' < 2 ^ 31 /\
    Light.calls h' = Light.calls h ++ [(Light.setMask, Light.AInt (Light.mask h'))].
Proof.
  intros Hl He. destruct f; cbn [flag_name] in *; eexists _, _.
  - rewrite (assign_affectDynamic _ _ _ _ _ _ Hl He). split; [reflexivity|]. split.
    { eapply lit_relight, lit_written; [discriminate | exact Hl]. }
    cbn [masked Light.mask Light.calls]. split; [apply int32_range|].
    rewrite dynamic_mask_int32. reflexivity.
  - rewrite (assign_affectLightmapped _ _ _ _ _ _ Hl He). split; [reflexivity|]. split.
    { eapply lit_relight, lit_written; [discriminate | exact Hl]. }
    cbn [masked Light.mask Light.calls]. split; [apply int32_range|].
    rewrite lightmapped_mask_int32. reflexivity.
  - rewrite (assign_bake _ _ _ _ _ _ Hl He). split; [reflexivity|]. split.
    { eapply lit_relight, lit_written; [discriminate | exact Hl]. }
    cbn [masked Light.mask Light.calls]. split; [apply int32_range|].
    rewrite bake_mask_int32. reflexivity.
Qed.

End ForeignBits.

(** ** Forwarding to the handle *)

Section Forwarding.

Context (pc : Host).
Local Abbreviation LC := (LightComponent pc).

(** X7. For every property registered with a forwarding on-change
    function, a changing write on an instance that owns a handle stores
    the value, records one dispatch and makes exactly one call on the
    handle: the property's setter, with the value as written. *)
Theorem forwarding_write_calls_the_setter_once name m v s r h fuel :
  prototype LC !! name = Some (Property name (Some (forward m))) ->
  lit s r h ->
  strict_eq (read (data s) name) v = false ->
  exists s' h',
    assign pc LC fuel name v s = Normal tt s' /\
    lit s' r h' /\
    read (data s') name = v /\
    Light.calls h' = Light.calls h ++ [(m, Light.AVal v)] /\
    fired s' = fired s ++ [{| d_name := name; d_value := v;
                              d_oldValue := read (data s) name |}].
Proof.
  intros Ha Hl He.
  assert (Hn : name <> "light").
  { intros ->. rewrite accessor_light in Ha. discriminate. }
  eexists _, _. rewrite (assign_changed _ _ _ _ _ _ Ha He). cbn [call].
  erewrite call_light_lit by (apply lit_written; [exact Hn | exact Hl]).
  split; [reflexivity|]. split.
  { eapply lit_relight, lit_written; [exact Hn | exact Hl]. }
  split; [|split; reflexivity].
  cbn [relight with_heap dispatched with_fired with_data data]. apply read_insert.
Qed.

Lemma accessor_shadowUpdateMode :
  prototype LC !! "shadowUpdateMode" =
  Some (Property "shadowUpdateMode" (Some on_shadowUpdateMode)).
Proof. vm_compute. reflexivity. Qed.

(** X8. A changing write to [shadowUpdateMode] assigns the field of the
    handle directly: the handle receives no method call, and its mask and
    enabled flag stay as they were. *)
Theorem shadowUpdateMode_write_assigns_the_field v s r h fuel :
  lit s r h ->
  strict_eq (read (data s) "shadowUpdateMode") v = false ->
  exists s' h',
    assign pc LC fuel "shadowUpdateMode" v s = Normal tt s' /\
    lit s' r h' /\
    Light.shadowUpdateMode h' = v /\
    Light.calls h' = Light.calls h /\
    Light.mask h' = Light.mask h /\ Light.enabled h' = Light.enabled h.
Proof.
  intros Hl He. eexists _, _.
  rewrite (assign_changed _ _ _ _ _ _ accessor_shadowUpdateMode He). cbn [call].
  set (s0 := dispatched _ _ _ _).
  assert (Hl0 : lit s0 r h) by (apply lit_written; [discriminate | exact Hl]).
  unfold assign_shadowUpdateMode.
  rewrite (bind_normal _ _ _ _ _ (get_light pc s0)), (proj1 Hl0).
  unfold modify, light_at. rewrite (proj2 Hl0).
  split; [reflexivity|]. split.
  { apply (lit_relight s0 r h), Hl0. }
  repeat split.
Qed.

(** X11. [updateShadow] on an instance that owns a handle calls the
    handle's [updateShadow] and nothing else: no property is stored, no
    on-change function runs.  Without a handle it ends in a TypeError and
    leaves the state as it was. *)
Theorem updateShadow_only_forwards s :
  (forall r h, lit s r h ->
     updateShadow pc LC s =
     Normal tt (relight r (Light.receive (ToInt32 pc) Light.updateShadow
                             (Light.AVal VUndefined) h) s)) /\
  (read (data s) "light" = VNull \/ read (data s) "light" = VUndefined ->
     updateShadow pc LC s = Throw s).
Proof.
  split.
  - intros r h Hl. apply call_light_lit, Hl.
  - intros Hn. unfold updateShadow, call_light.
    rewrite (bind_normal _ _ _ _ _ (get_light pc s)).
    destruct Hn as [-> | ->]; reflexivity.
Qed.

(** X12. [onEnable] and [onDisable] call the inherited method first and
    the handle second: on an instance that owns a handle the handle
    receives [setEnabled(true)], respectively [setEnabled(false)]; without
    a handle the call ends in a TypeError after the inherited method has
    run. *)
Theorem enable_hooks_call_super_first s :
  (forall r h, lit s r h ->
     onEnable pc LC s =
       Normal tt (relight r (Light.receive (ToInt32 pc) Light.setEnabled
                               (Light.AVal (VBool true)) h)
                    (with_framework (fun l => l ++ [super_onEnable]) s)) /\
     onDisable pc LC s =
       Normal tt (relight r (Light.receive (ToInt32 pc) Light.setEnabled
                               (Light.AVal (VBool false)) h)
                    (with_framework (fun l => l ++ [super_onDisable]) s))) /\
  (read (data s) "light" = VNull \/ read (data s) "light" = VUndefined ->
     onEnable pc LC s = Throw (with_framework (fun l => l ++ [super_onEnable]) s) /\
     onDisable pc LC s = Throw (with_framework (fun l => l ++ [super_onDisable]) s)).
Proof.
  split.
  - intros r h Hl. unfold onEnable, onDisable, bind, modify.
    split; apply call_light_lit; exact Hl.
  - intros Hn. unfold onEnable, onDisable, bind, modify.
    split; unfold call_light;
      rewrite (bind_normal _ _ _ _ _ (get_light pc _)); cbn [with_framework data];
      destruct Hn as [-> | ->]; reflexivity.
Qed.

End Forwarding.

(** ** Registration *)

(** How [_defineProperty] ends, for every registry. *)
Lemma _defineProperty_outcome name d f R :
  match _defineProperty name d f R with
  | Normal _ R' =>
      prototype R !! name <> Some EnableAlias /\
      R' = {| _props := _props R ++ [name];
              _propsDefault := _propsDefault R ++ [d];
              prototype := <[name := Property name f]> (prototype R) |}
  | Throw R' =>
      prototype R !! name = Some EnableAlias /\
      R' = {| _props := _props R ++ [name];
              _propsDefault := _propsDefault R ++ [d];
              prototype := prototype R |}
  | Exhausted => False
  end.
Proof.
  unfold _defineProperty, bind, modify, Object_defineProperty.
  cbn [prototype _props _propsDefault].
  destruct (prototype R !! name) as [[n g|]|]; cbn [configurable];
    split; first [discriminate | reflexivity].
Qed.

(** X9. [_defineProperty] always appends the name and the default to the
    two arrays, before it touches the prototype.  It ends in a TypeError
    exactly when the name is held by the alias, which is not configurable,
    and then the prototype is left as it was; otherwise it installs the
    new accessor under the name. *)
Theorem _defineProperty_appends_before_it_defines name d f R :
  match _defineProperty name d f R with
  | Normal _ R' =>
      prototype R !! name <> Some EnableAlias /\
      R' = {| _props := _props R ++ [name];
              _propsDefault := _propsDefault R ++ [d];
              prototype := <[name := Property name f]> (prototype R) |}
  | Throw R' =>
      prototype R !! name = Some EnableAlias /\
      R' = {| _props := _props R ++ [name];
              _propsDefault := _propsDefault R ++ [d];
              prototype := prototype R |}
  | Exhausted => False
  end.
Proof. apply _defineProperty_outcome. Qed.

Section Module.

Context (pc : Host).
Local Abbreviation LC := (LightComponent pc).

Lemma module_body_returns : module_body pc no_registry = Normal tt LC.
Proof. vm_compute. reflexivity. Qed.

(** X10. The module body runs to completion.  The twenty-seven
    registered names are pairwise distinct and "enable" is not among them;
    the two exported arrays have the same length; and the prototype holds
    the accessor of each registered name, the alias under "enable", and
    nothing else. *)
Theorem module_registry_is_well_formed :
  module_body pc no_registry = Normal tt LC /\
  NoDup (_props LC) /\
  ("enable" ∉ _props LC) /\
  length (_props LC) = length (_propsDefault LC) /\
  (forall name, name ∈ _props LC ->
     exists f, prototype LC !! name = Some (Property name f)) /\
  (forall key acc, prototype LC !! key = Some acc ->
     (key = "enable" /\ acc = EnableAlias) \/
     (key ∈ _props LC /\ exists f, acc = Property key f)).
Proof.
  split; [exact module_body_returns|].
  split; [rewrite props_of_LightComponent; apply (bool_decide_unpack _); vm_compute; exact I|].
  split; [rewrite props_of_LightComponent; apply (bool_decide_unpack _); vm_compute; exact I|].
  split; [rewrite props_of_LightComponent, propsDefault_of_LightComponent; reflexivity|].
  split; [apply registered_accessor|].
  intros key acc H. apply elem_of_map_to_list in H.
  eassert (E : map_to_list (prototype LC) = _) by (vm_compute; reflexivity).
  rewrite E in H. clear E. rewrite props_of_LightComponent.
  repeat (apply elem_of_cons in H; destruct H as [[= -> ->] | H];
          [first [ left; split; reflexivity
                 | right; split; [apply (bool_decide_unpack _); vm_compute; exact I
                                 | eexists; reflexivity] ] |]).
  apply elem_of_nil in H. contradiction.
Qed.

End Module.

(** ** Registration and dispatch together *)

Section RegisterThenWrite.

Context (pc : Host).

(** X14. Whatever was registered under a name before, once
    [_defineProperty(name, d, setFunc)] has returned it is the new
    [setFunc] that a changing write to [name] invokes: with a forwarding
    function for the method [m], the handle receives [m] with the value
    written, and nothing else. *)
Theorem latest_registration_is_dispatched (R R' : Registry) name d g m v s r h fuel :
  prototype R !! "light" = Some (Property "light" g) ->
  name <> "light" ->
  _defineProperty name d (Some (forward m)) R = Normal tt R' ->
  lit s r h ->
  strict_eq (read (data s) name) v = false ->
  assign pc R' fuel name v s =
  Normal tt
    (relight r (Light.receive (ToInt32 pc) m (Light.AVal v) h)
       (dispatched name v (read (data s) name) (with_data (insert name v) s))).
Proof.
  intros Hlight Hn Hdef [Hd Hh] He.
  pose proof (_defineProperty_outcome name d (Some (forward m)) R) as Hc.
  rewrite Hdef in Hc. destruct Hc as [_ ->].
  unfold assign, set. cbn [prototype]. rewrite lookup_insert_eq.
  unfold property_set, bind, gets. rewrite He. unfold modify. cbn [call].
  unfold call_light, get, bind. cbn [prototype].
  rewrite lookup_insert_ne by exact Hn. rewrite Hlight.
  unfold property_get, gets. cbn [with_fired with_data data].
  rewrite read_insert_ne by exact Hn. rewrite Hd.
  unfold ret, light_at. cbn [with_fired with_data heap]. rewrite Hh. reflexivity.
Qed.

End RegisterThenWrite.

(** ** The further properties on the sample instance *)

Lemma sample_self_equal : self_equal sample.
Proof.
  assert (H : map_Forall (fun _ v => strict_eq v v = true) (data sample))
    by (apply (bool_decide_unpack _); vm_compute; exact I).
  intros name. unfold read. destruct (data sample !! name) as [v|] eqn:E.
  - exact (H name v E).
  - reflexivity.
Defined.

Lemma sample_unlit_light : read (data sample_unlit) "light" = VNull.
Proof. vm_compute. reflexivity. Defined.

Lemma range_accessor :
  prototype sample_registry !! "range" =
  Some (Property "range" (Some (forward Light.setAttenuationEnd))).
Proof. vm_compute. reflexivity. Defined.

Lemma write_then_read_witness :
  "range" ∈ _props sample_registry /\
  match assign sample_pc sample_registry 0 "range" (VNum 20) sample_unlit with
  | Normal _ s' | Throw s' =>
      (if strict_eq (read (data sample_unlit) "range") (VNum 20)
       then s' = sample_unlit
       else read (data s') "range" = VNum 20) /\
      (forall k, k <> "range" -> k <> "light" ->
         read (data s') k = read (data sample_unlit) k)
  | Exhausted => True
  end.
Proof.
  split; [exact range_registered|].
  exact (write_then_read sample_pc "range" (VNum 20) sample_unlit 0 range_registered).
Defined.

Lemma write_without_handle_witness :
  read (data sample_unlit) "light" = VNull /\
  assign sample_pc sample_registry 0 "range" (VNum 20) sample_unlit =
  Throw (dispatched "range" (VNum 20) (read (data sample_unlit) "range")
           (with_data (insert "range" (VNum 20)) sample_unlit)).
Proof.
  split; [exact sample_unlit_light|].
  apply (write_without_handle_is_not_rolled_back sample_pc "range"
           (forward Light.setAttenuationEnd) (VNum 20) sample_unlit 0 range_accessor).
  - reflexivity.
  - left. exact sample_unlit_light.
  - vm_compute. reflexivity.
Defined.

Lemma refreshProperties_enable_check_witness :
  self_equal sample /\
  refreshProperties sample_pc sample_registry 1 sample =
  if truthy (read (data sample) "enabled") && entity_enabled sample
  then onEnable sample_pc sample_registry sample
  else Normal tt sample.
Proof.
  split; [exact sample_self_equal|].
  exact (refreshProperties_is_its_enable_check sample_pc sample 0 sample_self_equal).
Defined.

Lemma foreign_bits_witness :
  foreign_bit sample_pc 5 /\
  exists s' h',
    write_flags sample_pc 0 [(bake, true); (affectDynamic, false); (affectLightmapped, true)]
      sample = Normal tt s' /\
    lit s' 1 h' /\
    forall i, foreign_bit sample_pc i ->
      Z.testbit (Light.mask h') i = Z.testbit (Light.mask sample_light) i.
Proof.
  split; [unfold foreign_bit; vm_compute; repeat split; discriminate|].
  exact (flag_writes_keep_foreign_bits sample_pc _ sample 1%nat sample_light 0%nat sample_lit).
Defined.

Lemma int32_mask_witness :
  exists s' h',
    assign sample_pc sample_registry 0 (flag_name bake) (VBool true) sample = Normal tt s' /\
    lit s' 1 h' /\
    - 2 ^ 31 <= Light.mask h' < 2 ^ 31 /\
    Light.calls h' =
      Light.calls sample_light ++ [(Light.setMask, Light.AInt (Light.mask h'))].
Proof.
  apply (flag_write_leaves_an_int32_mask sample_pc sample 1%nat sample_light bake
           (VBool true) 0%nat sample_lit).
  vm_compute. reflexivity.
Defined.

Lemma forwarding_write_witness :
  exists s' h',
    assign sample_pc sample_registry 0 "range" (VNum 20) sample = Normal tt s' /\
    lit s' 1 h' /\
    read (data s') "range" = VNum 20 /\
    Light.calls h' = Light.calls sample_light ++ [(Light.setAttenuationEnd, Light.AVal (VNum 20))] /\
    fired s' = fired sample ++ [{| d_name := "range"; d_value := VNum 20;
                                   d_oldValue := read (data sample) "range" |}].
Proof.
  apply (forwarding_write_calls_the_setter_once sample_pc "range" Light.setAttenuationEnd
           (VNum 20) sample 1%nat sample_light 0%nat range_accessor sample_lit).
  vm_compute. reflexivity.
Defined.

Lemma shadowUpdateMode_write_witness :
  exists s' h',
    assign sample_pc sample_registry 0 "shadowUpdateMode" (VNum 0) sample = Normal tt s' /\
    lit s' 1 h' /\
    Light.shadowUpdateMode h' = VNum 0 /\
    Light.calls h' = Light.calls sample_light /\
    Light.mask h' = Light.mask sample_light /\
    Light.enabled h' = Light.enabled sample_light.
Proof.
  apply (shadowUpdateMode_write_assigns_the_field sample_pc (VNum 0) sample 1%nat
           sample_light 0%nat sample_lit).
  vm_compute. reflexivity.
Defined.

Lemma updateShadow_witness :
  updateShadow sample_pc sample_registry sample =
    Normal tt (relight 1 (Light.receive (ToInt32 sample_pc) Light.updateShadow
                            (Light.AVal VUndefined) sample_light) sample) /\
  updateShadow sample_pc sample_registry sample_unlit = Throw sample_unlit.
Proof.
  split.
  - exact (proj1 (updateShadow_only_forwards sample_pc sample) 1%nat sample_light sample_lit).
  - exact (proj2 (updateShadow_only_forwards sample_pc sample_unlit)
             (or_introl sample_unlit_light)).
Defined.

Lemma enable_hooks_witness :
  onDisable sample_pc sample_registry sample =
    Normal tt (relight 1 (Light.receive (ToInt32 sample_pc) Light.setEnabled
                            (Light.AVal (VBool false)) sample_light)
                 (with_framework (fun l => l ++ [super_onDisable]) sample)) /\
  onEnable sample_pc sample_registry sample_unlit =
    Throw (with_framework (fun l => l ++ [super_onEnable]) sample_unlit).
Proof.
  split.
  - exact (proj2 (proj1 (enable_hooks_call_super_first sample_pc sample) 1%nat
                    sample_light sample_lit)).
  - exact (proj1 (proj2 (enable_hooks_call_super_first sample_pc sample_unlit)
                    (or_introl sample_unlit_light))).
Defined.

Lemma latest_registration_witness :
  exists R',
    _defineProperty "range" (VNum 5) (Some (forward Light.setColor)) sample_registry =
      Normal tt R' /\
    assign sample_pc R' 0 "range" (VNum 20) sample =
    Normal tt
      (relight 1 (Light.receive (ToInt32 sample_pc) Light.setColor (Light.AVal (VNum 20))
                    sample_light)
         (dispatched "range" (VNum 20) (read (data sample) "range")
            (with_data (insert "range" (VNum 20)) sample))).
Proof.
  eexists. split; [vm_compute; reflexivity|].
  eapply (latest_registration_is_dispatched sample_pc sample_registry _ "range" (VNum 5) None
            Light.setColor (VNum 20) sample 1%nat sample_light 0%nat).
  - vm_compute. reflexivity.
  - discriminate.
  - vm_compute. reflexivity.
  - exact sample_lit.
  - vm_compute. reflexivity.
Defined.
